(** * Chat services of site.ai: a shallow embedding of
    [api/app/services/chat.py] and the properties of its six operations.

    The service functions are translated one by one into a state-and-error
    monad over a [World] that holds the chat collection, the hidden state of
    the AI provider and the chronological trace of the calls made to the two
    collaborators (the document store and the AI provider). *)

From Stdlib Require Import Ascii NArith.
From stdpp Require Import base option list strings gmap fin_maps fin_sets infinite.

Local Open Scope string_scope.

(** ** Python strings

    A Python [str] is modelled by a Rocq [string] whose characters are the
    code points below 256. *)
Module Py.

(** [str.isspace] on one character: the white space code points below 256
    are U+0009..U+000D, U+001C..U+001F, U+0020, U+0085 and U+00A0. *)
Definition isspace (a : ascii) : bool :=
  let n := N_of_ascii a in
  ((9 <=? n) && (n <=? 13) || (28 <=? n) && (n <=? 32)
   || (n =? 133) || (n =? 160))%N.

(** [s.lstrip()] *)
Fixpoint lstrip (s : string) : string :=
  match s with
  | "" => ""
  | String a s' => if isspace a then lstrip s' else s
  end.

(** [s.rstrip()] *)
Definition rstrip (s : string) : string :=
  String.rev (lstrip (String.rev s)).

(** [s.strip()] *)
Definition strip (s : string) : string := rstrip (lstrip s).

(** Truth value of a [str] in a condition: the empty string is false. *)
Definition truthy (s : string) : bool :=
  match s with "" => false | String _ _ => true end.

(** Every character of [s] is white space. *)
Fixpoint blank (s : string) : bool :=
  match s with
  | "" => true
  | String a s' => isspace a && blank s'
  end.

End Py.

(** ** Exceptions

    [HTTPException(status_code, detail)] is what the services raise
    themselves; [UpstreamFailure] stands for any exception that escapes the
    AI provider. *)
Inductive Exn : Type :=
| HTTPException (status_code : N) (detail : string)
| UpstreamFailure (detail : string).

Global Instance Exn_eq_dec : EqDecision Exn.
Proof. solve_decision. Defined.

(** The two error kinds the specification names. *)
Definition InvalidArgument (e : Exn) : Prop :=
  ∃ detail, e = HTTPException 400 detail.
Definition NotFound (e : Exn) : Prop :=
  ∃ detail, e = HTTPException 404 detail.

(** ** Models ([api/app/models/chat.py]) *)

Inductive MessageType : Type := USER | AI.

Global Instance MessageType_eq_dec : EqDecision MessageType.
Proof. solve_decision. Defined.

Record Message : Type := { content : string; type : MessageType }.

Global Instance Message_eq_dec : EqDecision Message.
Proof. solve_decision. Defined.

Record Code : Type := { html : string; css : string; js : string }.

Global Instance Code_eq_dec : EqDecision Code.
Proof. solve_decision. Defined.

Record Prompt : Type := { input : string }.

Record Chat : Type :=
  { userId : string; name : string; messages : list Message; code : Code }.

(** Modelled from the spec: the model file [models/chat.py] is missing.
    [Chat(userId=..., name=...)] leaves [messages]
    empty and [code] at three empty strings (spec, section 3 and the
    scenario of section 8: "css/js remain at prior (empty) value"). *)
Definition new_Chat (user_id name : string) : Chat :=
  {| userId := user_id; name := name; messages := [];
     code := {| html := ""; css := ""; js := "" |} |}.

(** The sentinel name. *)
Definition New_Chat : string := "New Chat".

(** ** Stored documents

    A stored document is a dictionary; a partial update with upsert can
    create one that lacks fields, so every scalar field is optional.  The
    sub-document [code] is flattened into its three dotted paths.  An absent
    [messages] array and an empty one are not told apart ([$push] treats
    them alike).  The key [_id] is the key of the collection. *)
Record Document : Type :=
  { d_userId : option string;
    d_name : option string;
    d_messages : list Message;
    d_html : option string;
    d_css : option string;
    d_js : option string }.

Global Instance Document_eq_dec : EqDecision Document.
Proof. solve_decision. Defined.

(** [chat.model_dump()] *)
Definition model_dump (c : Chat) : Document :=
  {| d_userId := Some (userId c);
     d_name := Some (name c);
     d_messages := messages c;
     d_html := Some (html (code c));
     d_css := Some (css (code c));
     d_js := Some (js (code c)) |}.

(** The document that holds nothing but its [_id]. *)
Definition empty_document : Document :=
  {| d_userId := None; d_name := None; d_messages := [];
     d_html := None; d_css := None; d_js := None |}.

(** ** Update specifications

    [update_data] of [post_message_by_chat_id]: the [$each] list of the
    [$push] on [messages], and the [$set] dictionary, which is [None] once
    the key has been deleted from [update_data]. *)
Record UpdateData : Type :=
  { push_each : list Message; set_ : option (gmap string string) }.

(** One field under [$set]: the new value if the path is a key of the
    dictionary, else the stored one. *)
Definition set_field (s : gmap string string) (path : string)
    (old : option string) : option string :=
  match s !! path with
  | Some v => Some v
  | None => old
  end.

(** The effect of an update on one document ([$push] with [$each] appends
    at the end, in order). Only the four paths the services write are
    looked up in [$set]. *)
Definition apply_update (u : UpdateData) (d : Document) : Document :=
  let s := default ∅ (set_ u) in
  {| d_userId := d_userId d;
     d_name := set_field s "name" (d_name d);
     d_messages := d_messages d ++ push_each u;
     d_html := set_field s "code.html" (d_html d);
     d_css := set_field s "code.css" (d_css d);
     d_js := set_field s "code.js" (d_js d) |}.

(** ** The two collaborators *)

(** The identifier format of the store ([bson.ObjectId]): [is_valid] is
    [ObjectId.is_valid] on strings, [ObjectId] the constructor from a
    string (used on valid strings only), and fresh identifiers can always
    be generated. *)
Class IdFormat : Type :=
  { oid : Type;
    oid_eq_dec :: EqDecision oid;
    oid_countable :: Countable oid;
    oid_infinite :: Infinite oid;
    is_valid : string → bool;
    ObjectId : string → oid }.

(** What the AI provider returns: a dictionary with four string entries. *)
Record AiResponse : Type :=
  { explanation : string; r_html : string; r_css : string; r_js : string }.

(** The AI provider ([services/gemini.py], [get_ai_response(prompt,
    chat_id)]): it may keep state of its own between calls (sessions), and
    it either returns a response or fails. *)
Class Provider : Type :=
  { AiState : Type;
    get_ai_response : string → string → AiState → (Exn + AiResponse) * AiState }.

(** ** The world and the monad of the services *)

Section Services.

Context `{IdFormat} `{Provider}.

(** The calls that reach a collaborator, as the services issue them. *)
Inductive Event : Type :=
| EvFind (user_id : string)
| EvFindOne (_id : oid)
| EvInsertOne (_id : oid)
| EvUpdateOne (_id : oid) (upsert : bool)
| EvDeleteOne (_id : oid)
| EvAiResponse (prompt chat_id : string).

(** Storage accesses that write. *)
Definition is_write (e : Event) : bool :=
  match e with
  | EvInsertOne _ | EvUpdateOne _ _ | EvDeleteOne _ => true
  | EvFind _ | EvFindOne _ | EvAiResponse _ _ => false
  end.

Record World : Type :=
  { chats : gmap oid Document;     (* [chatsCollection] *)
    ai_state : AiState;            (* hidden state of the provider *)
    trace : list Event }.          (* calls made so far, oldest first *)

(** A computation either raises or returns, and leaves a world behind in
    both cases: what was written before a [raise] stays written. *)
Definition M (A : Type) : Type := World → (Exn + A) * World.

Global Instance M_ret : MRet M := λ A (a : A) w, (inr a, w).

Global Instance M_bind : MBind M := λ A B (f : A → M B) (m : M A) w,
  match m w with
  | (inl e, w') => (inl e, w')
  | (inr a, w') => f a w'
  end.

Definition raise {A : Type} (e : Exn) : M A := λ w, (inl e, w).

(** Outcome and final world of a run. *)
Definition outcome {A : Type} (m : M A) (w : World) : Exn + A := (m w).1.
Definition after {A : Type} (m : M A) (w : World) : World := (m w).2.

Definition log (e : Event) (w : World) : World :=
  {| chats := chats w; ai_state := ai_state w; trace := trace w ++ [e] |}.

Definition with_chats (c : gmap oid Document) (w : World) : World :=
  {| chats := c; ai_state := ai_state w; trace := trace w |}.

(** *** The document store ([pymongo.collection.Collection]) *)

(** A record as a query returns it: the document with its [_id]. *)
Definition Record_ : Type := oid * Document.
Definition Cursor : Type := list Record_.

Record InsertOneResult : Type := { inserted_id : oid }.
Record UpdateResult : Type := { matched_count : nat; upserted_id : option oid }.
Record DeleteResult : Type := { deleted_count : nat }.

(** [chatsCollection.find({"userId": user_id})]: a cursor over the
    matching records.  The driver always returns a cursor object, also
    when nothing matches; the option type stands for a Python reference
    that the caller compares with [None]. *)
Definition find (user_id : string) : M (option Cursor) := λ w,
  (inr (Some (filter (λ r : Record_, d_userId r.2 = Some user_id)
                     (map_to_list (chats w)))),
   log (EvFind user_id) w).

(** [chatsCollection.find_one({"_id": _id})] *)
Definition find_one (_id : oid) : M (option Record_) := λ w,
  (inr ((λ d, (_id, d)) <$> chats w !! _id), log (EvFindOne _id) w).

(** [chatsCollection.insert_one(document)] for a document without [_id]:
    the driver generates an identifier that is not in use. *)
Definition insert_one (d : Document) : M InsertOneResult := λ w,
  let _id := fresh (dom (chats w)) in
  (inr {| inserted_id := _id |},
   log (EvInsertOne _id) (with_chats (<[_id := d]> (chats w)) w)).

(** [chatsCollection.update_one({"_id": _id}, update, upsert=upsert)]:
    the matched record is updated in one step; when none matches, an
    upsert inserts the update applied to the document made of the filter
    alone, and reports no match. *)
Definition update_one (_id : oid) (u : UpdateData) (upsert : bool)
    : M UpdateResult := λ w,
  match chats w !! _id with
  | Some d =>
      (inr {| matched_count := 1; upserted_id := None |},
       log (EvUpdateOne _id upsert)
           (with_chats (<[_id := apply_update u d]> (chats w)) w))
  | None =>
      if upsert then
        (inr {| matched_count := 0; upserted_id := Some _id |},
         log (EvUpdateOne _id upsert)
             (with_chats (<[_id := apply_update u empty_document]> (chats w)) w))
      else
        (inr {| matched_count := 0; upserted_id := None |},
         log (EvUpdateOne _id upsert) w)
  end.

(** [chatsCollection.delete_one({"_id": _id})] *)
Definition delete_one (_id : oid) : M DeleteResult := λ w,
  match chats w !! _id with
  | Some _ =>
      (inr {| deleted_count := 1 |},
       log (EvDeleteOne _id) (with_chats (delete _id (chats w)) w))
  | None => (inr {| deleted_count := 0 |}, log (EvDeleteOne _id) w)
  end.

(** *** The AI provider: [await get_ai_response(prompt, chat_id)] *)
Definition await_ai_response (prompt chat_id : string) : M AiResponse := λ w,
  let '(r, a) := get_ai_response prompt chat_id (ai_state w) in
  (r, log (EvAiResponse prompt chat_id)
          {| chats := chats w; ai_state := a; trace := trace w |}).

(** *** Schemas ([api/app/schemas/chat.py]) *)

(** Modelled from the spec: the schema file [schemas/chat.py] is missing.
    A chat summary and a chat detail both carry the id, the
    userId, the name, the messages and the code of the record they are
    made from (spec, sections 3 and 4.1), and the list of a user's chats
    is the ordered collection of their summaries. *)
Definition basic_chat (r : Record_) : Record_ := r.
Definition detailed_chat (r : Record_) : Record_ := r.
Definition all_chats (c : Cursor) : list Record_ := basic_chat <$> c.

(** ** The services ([api/app/services/chat.py]) *)

Definition get_chats_by_user_id (user_id : string) : M (list Record_) :=
  resp ← find user_id;
  match resp with
  | None => raise (HTTPException 404 "No chats found for this user")
  | Some resp => mret (all_chats resp)
  end.

(** The parameter [name] has the default value ["New Chat"]. *)
Definition create_chat_by_user_id (user_id : string) (name : option string)
    : M Record_ :=
  let name := default "New Chat" name in
  let chat := new_Chat user_id name in
  resp ← insert_one (model_dump chat);
  mret (basic_chat (inserted_id resp, model_dump chat)).

Definition rename_chat_by_id (chat_id name : string) : M string :=
  if negb (is_valid chat_id) then
    raise (HTTPException 400 "Invalid chat ID")
  else
    resp ← update_one (ObjectId chat_id)
             {| push_each := []; set_ := Some {[ "name" := name ]} |} false;
    if (matched_count resp =? 0)%nat then
      raise (HTTPException 404 "Chat not found")
    else mret "Chat renamed successfully.".

Definition get_chat_by_id (chat_id : string) : M Record_ :=
  if negb (is_valid chat_id) then
    raise (HTTPException 400 "Invalid chat ID")
  else
    resp ← find_one (ObjectId chat_id);
    match resp with
    | None => raise (HTTPException 404 "Chat not found")
    | Some resp => mret (detailed_chat resp)
    end.

Definition delete_chat_by_id (chat_id : string) : M string :=
  if negb (is_valid chat_id) then
    raise (HTTPException 400 "Invalid chat ID")
  else
    resp ← delete_one (ObjectId chat_id);
    if (deleted_count resp =? 0)%nat then
      raise (HTTPException 404 "Chat not found")
    else mret "Chat deleted successfully.".

(** The dictionary [post_message_by_chat_id] returns. *)
Record PostResult : Type :=
  { p_name : option string; p_message : Message; p_code : Code }.

(** [update_data["$set"][path] = value] under a condition. *)
Definition set_if (b : bool) (path value : string)
    (s : gmap string string) : gmap string string :=
  if b then <[path := value]> s else s.

Definition post_message_by_chat_id (prompt : Prompt) (chat_id : string)
    : M PostResult :=
  if negb (is_valid chat_id) then
    raise (HTTPException 400 "Invalid chat ID")
  else
    response ← await_ai_response (input prompt) chat_id;
    let user_message := {| content := input prompt; type := USER |} in
    let ai_message := {| content := explanation response; type := AI |} in
    let code := {| html := r_html response; css := r_css response;
                   js := r_js response |} in
    chat ← find_one (ObjectId chat_id);
    match chat with
    | None => raise (HTTPException 404 "Chat not found")
    | Some chat =>
        let set0 : gmap string string := ∅ in
        (* Update individual code fields only if non-empty *)
        let set1 := set_if (Py.truthy (Py.strip (html code)))
                      "code.html" (html code) set0 in
        let set2 := set_if (Py.truthy (Py.strip (css code)))
                      "code.css" (css code) set1 in
        let set3 := set_if (Py.truthy (Py.strip (js code)))
                      "code.js" (js code) set2 in
        (* Rename the chat if it's still "New Chat" *)
        let set4 := set_if (bool_decide (d_name chat.2 = Some "New Chat"))
                      "name" (input prompt) set3 in
        (* If $set is empty, remove it *)
        let update_data :=
          {| push_each := [user_message; ai_message];
             set_ := if bool_decide (set4 = ∅) then None else Some set4 |} in
        result ← update_one (ObjectId chat_id) update_data true;
        if (matched_count result =? 0)%nat then
          raise (HTTPException 404 "Chat not found")
        else
          mret {| p_name := set_field (default ∅ (set_ update_data)) "name"
                              (d_name chat.2);
                  p_message := ai_message;
                  p_code := code |}
    end.

End Services.

(** ** Concrete collaborators, for running the services *)

(** Identifiers written as 24 hexadecimal digits and read as numbers. *)
Module Hex24.

Definition digit (a : ascii) : option N :=
  let n := N_of_ascii a in
  if ((48 <=? n) && (n <=? 57))%N then Some (n - 48)%N
  else if ((97 <=? n) && (n <=? 102))%N then Some (n - 87)%N
  else if ((65 <=? n) && (n <=? 70))%N then Some (n - 55)%N
  else None.

Fixpoint value (acc : N) (s : string) : option N :=
  match s with
  | "" => Some acc
  | String a s' =>
      match digit a with
      | Some d => value (16 * acc + d)%N s'
      | None => None
      end
  end.

Definition valid (s : string) : bool :=
  (String.length s =? 24)%nat && bool_decide (is_Some (value 0 s)).

Definition parse (s : string) : N := default 0%N (value 0 s).

Definition format : IdFormat :=
  {| oid := N; is_valid := valid; ObjectId := parse |}.

End Hex24.

(** A provider that replays a script of outcomes, one per call, and fails
    once the script is exhausted. *)
Module Scripted.

Definition respond (_ _ : string) (script : list (Exn + AiResponse))
    : (Exn + AiResponse) * list (Exn + AiResponse) :=
  match script with
  | [] => (inl (UpstreamFailure "no response"), [])
  | r :: script' => (r, script')
  end.

Definition provider : Provider :=
  {| AiState := list (Exn + AiResponse); get_ai_response := respond |}.

End Scripted.

(** Test data: the scenario of the specification (section 8) and a chat
    with some history. *)
Module Demo.

Definition W : Type := @World Hex24.format Scripted.provider.

Definition world (docs : list (N * Document))
    (script : list (Exn + AiResponse)) : W :=
  @Build_World Hex24.format Scripted.provider (list_to_map docs) script [].

(** A well-formed id (it reads as 0) and a malformed one. *)
Definition cid : string := "000000000000000000000000".
Definition bad : string := "not-an-id".

(** The mocked response of the scenario. *)
Definition button : AiResponse :=
  {| explanation := "Here"; r_html := "<button>"; r_css := ""; r_js := "" |}.

(** A chat that was named by hand and already holds a turn and a style. *)
Definition styled : Document :=
  {| d_userId := Some "u1";
     d_name := Some "My page";
     d_messages := [ {| content := "make it blue"; type := USER |};
                     {| content := "Done"; type := AI |} ];
     d_html := Some "<p>";
     d_css := Some "p{color:blue}";
     d_js := Some "" |}.

Definition build : Prompt := {| input := "build a button" |}.
Definition hello : Prompt := {| input := "hello" |}.
Definition sentinel : Prompt := {| input := "New Chat" |}.

(** No chat at all; the chat [styled] under [cid]. *)
Definition empty : W := world [] [inr button; inr button].
Definition one : W := world [(0%N, styled)] [inr button; inr button].

(** A chat created without a name for user "u1", then two turns: the
    scenario of the specification, and the same with "New Chat" as the
    first prompt. *)
Definition created : W := after (create_chat_by_user_id "u1" None) empty.
Definition built : W := after (post_message_by_chat_id build cid) created.
Definition built_hello : W := after (post_message_by_chat_id hello cid) built.
Definition echoed : W := after (post_message_by_chat_id sentinel cid) created.
Definition echoed_hello : W :=
  after (post_message_by_chat_id hello cid) echoed.

(** [one] once its chat has been renamed to the sentinel by hand. *)
Definition reset : W := after (rename_chat_by_id cid New_Chat) one.

End Demo.

(** ** Vocabulary of the properties *)

Section Vocabulary.

Context `{IdFormat} `{Provider}.

(** The record a chat id names, and its stored name. *)
Definition stored (w : World) (chat_id : string) : option Document :=
  chats w !! ObjectId chat_id.
Definition stored_name (w : World) (chat_id : string) : option string :=
  stored w chat_id ≫= d_name.

(** What a run returned, if it returned. *)
Definition value {A : Type} (o : Exn + A) : option A :=
  match o with inr a => Some a | inl _ => None end.

(** The computation raises an exception of the given kind. *)
Definition fails_with {A : Type} (kind : Exn → Prop) (m : M A) (w : World)
    : Prop :=
  ∃ e, outcome m w = inl e ∧ kind e.

(** How a stored code field relates to the value the provider returned
    for it: set when that value is not blank once stripped, else kept. *)
Definition field_rule (returned : string) (old new : option string) : Prop :=
  (Py.strip returned ≠ "" → new = Some returned) ∧
  (Py.strip returned = "" → new = old).

(** The two messages of one turn. *)
Definition turn (p : string) (r : AiResponse) : list Message :=
  [ {| content := p; type := USER |};
    {| content := explanation r; type := AI |} ].

(** The full update of one turn, as the specification words it (4.1,
    step e): both messages appended, every code field set only when the
    provider's value is not blank, the name set to the prompt when it is
    still the sentinel. *)
Definition posted (p : string) (r : AiResponse) (d : Document) : Document :=
  {| d_userId := d_userId d;
     d_name := if bool_decide (d_name d = Some New_Chat) then Some p
               else d_name d;
     d_messages := d_messages d ++ turn p r;
     d_html := if Py.blank (r_html r) then d_html d else Some (r_html r);
     d_css := if Py.blank (r_css r) then d_css d else Some (r_css r);
     d_js := if Py.blank (r_js r) then d_js d else Some (r_js r) |}.

(** The events [w'] has recorded since [w], when it extends it. *)
Definition since (w w' : World) : list Event :=
  drop (length (trace w)) (trace w').

End Vocabulary.

(** ** Several turns in a row *)

Section History.

Context `{IdFormat} `{Provider}.

(** A client posting prompts one after the other to one chat: each call is
    [post_message_by_chat_id], and the first exception ends the sequence. *)
Fixpoint post_all (prompts : list Prompt) (chat_id : string)
    : M (list PostResult) :=
  match prompts with
  | [] => mret []
  | prompt :: prompts' =>
      x ← post_message_by_chat_id prompt chat_id;
      xs ← post_all prompts' chat_id;
      mret (x :: xs)
  end.

(** From state [a] on, the provider answers each prompt of [turns] with
    the response paired with it. *)
Fixpoint answers (chat_id : string) (a : AiState)
    (turns : list (Prompt * AiResponse)) : Prop :=
  match turns with
  | [] => True
  | (prompt, r) :: turns' =>
      ∃ a', get_ai_response (input prompt) chat_id a = (inr r, a') ∧
            answers chat_id a' turns'
  end.

(** The last value received for a code field that is not blank once
    stripped, or the value stored before if there is none. *)
Definition latest (old : option string) (received : list string)
    : option string :=
  from_option Some old (last (filter (λ v, Py.strip v ≠ "") received)).

(** Every record of [w] is still in [w'], has the same owner there, and
    has its messages of [w] as the beginning of those of [w']. *)
Definition keeps (w w' : World) : Prop :=
  ∀ _id d, chats w !! _id = Some d →
    ∃ d', chats w' !! _id = Some d' ∧
          d_userId d' = d_userId d ∧
          d_messages d `prefix_of` d_messages d'.

(** The record after the full updates of several turns, oldest first. *)
Definition posted_all (turns : list (Prompt * AiResponse)) (d : Document)
    : Document :=
  fold_left (λ d turn, posted (input turn.1) turn.2 d) turns d.

(** The calls post-message makes, in order, as far as it gets. *)
Definition post_calls (w : World) (prompt : Prompt) (chat_id : string)
    : list Event :=
  if is_valid chat_id then
    EvAiResponse (input prompt) chat_id ::
    match (get_ai_response (input prompt) chat_id (ai_state w)).1 with
    | inl _ => []
    | inr _ =>
        EvFindOne (ObjectId chat_id) ::
        match chats w !! ObjectId chat_id with
        | Some _ => [EvUpdateOne (ObjectId chat_id) true]
        | None => []
        end
    end
  else [].

End History.

(** ** The store is shared

    [post_message_by_chat_id] holds no lock and reaches the store in two
    separate calls, the lookup ([find_one], line 75) and the update
    ([update_one], line 102).  Other clients of the collection can act in
    between. *)

Section Shared.

Context `{IdFormat} `{Provider}.

(** What other clients do to the world while this call is between two of
    its own steps. *)
Definition meanwhile (others : World → World) : M unit :=
  λ w, (inr (), others w).

(** [post_message_by_chat_id], line by line as above, with the other
    clients acting between its lookup and its update.  The name test and
    the returned name use the record as the lookup saw it. *)
Definition post_message_interleaved (others : World → World)
    (prompt : Prompt) (chat_id : string) : M PostResult :=
  if negb (is_valid chat_id) then
    raise (HTTPException 400 "Invalid chat ID")
  else
    response ← await_ai_response (input prompt) chat_id;
    let user_message := {| content := input prompt; type := USER |} in
    let ai_message := {| content := explanation response; type := AI |} in
    let code := {| html := r_html response; css := r_css response;
                   js := r_js response |} in
    chat ← find_one (ObjectId chat_id);
    match chat with
    | None => raise (HTTPException 404 "Chat not found")
    | Some chat =>
        let set0 : gmap string string := ∅ in
        let set1 := set_if (Py.truthy (Py.strip (html code)))
                      "code.html" (html code) set0 in
        let set2 := set_if (Py.truthy (Py.strip (css code)))
                      "code.css" (css code) set1 in
        let set3 := set_if (Py.truthy (Py.strip (js code)))
                      "code.js" (js code) set2 in
        let set4 := set_if (bool_decide (d_name chat.2 = Some "New Chat"))
                      "name" (input prompt) set3 in
        let update_data :=
          {| push_each := [user_message; ai_message];
             set_ := if bool_decide (set4 = ∅) then None else Some set4 |} in
        _ ← meanwhile others;
        result ← update_one (ObjectId chat_id) update_data true;
        if (matched_count result =? 0)%nat then
          raise (HTTPException 404 "Chat not found")
        else
          mret {| p_name := set_field (default ∅ (set_ update_data)) "name"
                              (d_name chat.2);
                  p_message := ai_message;
                  p_code := code |}
    end.

(** The first two steps of a post: the provider call and the lookup. *)
Definition looked_up (prompt : Prompt) (chat_id : string)
    : M (option Record_) :=
  _ ← await_ai_response (input prompt) chat_id;
  find_one (ObjectId chat_id).

(** The update of one turn applied to the record [d] found at update
    time, when the lookup had seen the record [seen]: the name is set
    when the name the lookup saw was the sentinel. *)
Definition posted_on (p : string) (r : AiResponse) (seen d : Document)
    : Document :=
  {| d_userId := d_userId d;
     d_name := if bool_decide (d_name seen = Some New_Chat) then Some p
               else d_name d;
     d_messages := d_messages d ++ turn p r;
     d_html := if Py.blank (r_html r) then d_html d else Some (r_html r);
     d_css := if Py.blank (r_css r) then d_css d else Some (r_css r);
     d_js := if Py.blank (r_js r) then d_js d else Some (r_js r) |}.

End Shared.

(** More test data. *)
Module Cases.

(** A provider that is out of service. *)
Definition down : Demo.W :=
  Demo.world [(0%N, Demo.styled)] [inl (UpstreamFailure "quota exceeded")].

(** A second well-formed id (it reads as 1), of a chat of another user. *)
Definition cid1 : string := "000000000000000000000001".
Definition other : Document :=
  {| d_userId := Some "u2"; d_name := Some "New Chat"; d_messages := [];
     d_html := Some ""; d_css := Some ""; d_js := Some "" |}.
Definition two : Demo.W :=
  Demo.world [(0%N, Demo.styled); (1%N, other)] [inr Demo.button].

(** Three turns: a page, then a style without markup, then only talk. *)
Definition page : AiResponse :=
  {| explanation := "A page"; r_html := "<h1>"; r_css := ""; r_js := " " |}.
Definition style : AiResponse :=
  {| explanation := "A style"; r_html := ""; r_css := "h1{}"; r_js := "" |}.
Definition talk : AiResponse :=
  {| explanation := "Sure"; r_html := "  "; r_css := ""; r_js := "" |}.
Definition turns : list (Prompt * AiResponse) :=
  [ ({| input := "a page" |}, page); ({| input := "style it" |}, style);
    ({| input := "thanks" |}, talk) ].
Definition three : Demo.W :=
  Demo.world [(0%N, Demo.styled)] [inr page; inr style; inr talk].
Definition fresh_three : Demo.W :=
  Demo.world [(0%N, other)] [inr page; inr style; inr talk].
Definition chatty : Demo.W := Demo.world [(0%N, Demo.styled)] [inr talk].

(** No chat at all, and a provider that is out of service. *)
Definition gone : Demo.W :=
  Demo.world [] [inl (UpstreamFailure "quota exceeded")].

End Cases.

(** * Properties *)

(** ** Blank strings *)

Lemma truthy_false_iff (s : string) : Py.truthy s = false ↔ s = "".
Proof. destruct s; simpl; split; congruence. Qed.

Lemma lstrip_empty_iff (s : string) : Py.lstrip s = "" ↔ Py.blank s = true.
Proof.
  induction s as [|a s IH]; simpl; [done|].
  destruct (Py.isspace a); simpl; [exact IH|]. split; discriminate.
Qed.

Lemma blank_lstrip (s : string) : Py.blank (Py.lstrip s) = Py.blank s.
Proof.
  induction s as [|a s IH]; simpl; [done|].
  destruct (Py.isspace a) eqn:Ha; simpl; [exact IH|]. by rewrite Ha.
Qed.

Lemma blank_rev_app (s t : string) :
  Py.blank (String.rev_app s t) = Py.blank s && Py.blank t.
Proof.
  revert t. induction s as [|a s IH]; intros t; simpl; [done|].
  rewrite IH. simpl. destruct (Py.isspace a), (Py.blank s); simpl; auto.
Qed.

Lemma blank_rev (s : string) : Py.blank (String.rev s) = Py.blank s.
Proof.
  unfold String.rev. rewrite blank_rev_app. simpl. apply andb_true_r.
Qed.

Lemma rev_app_empty (s t : string) : String.rev_app s t = "" → s = "".
Proof.
  revert t. induction s as [|a s IH]; intros t; simpl; [done|].
  intros Hr. apply IH in Hr as Hs. subst s. simpl in Hr. discriminate.
Qed.

(** [s.strip()] is empty exactly when [s] holds white space only. *)
Lemma strip_empty_iff (s : string) : Py.strip s = "" ↔ Py.blank s = true.
Proof.
  unfold Py.strip, Py.rstrip. split.
  - intros Hs. apply rev_app_empty in Hs. apply lstrip_empty_iff in Hs.
    by rewrite blank_rev, blank_lstrip in Hs.
  - intros Hb.
    assert (Py.lstrip (String.rev (Py.lstrip s)) = "") as ->; [|done].
    apply lstrip_empty_iff. by rewrite blank_rev, blank_lstrip.
Qed.

Lemma truthy_strip (s : string) :
  Py.truthy (Py.strip s) = negb (Py.blank s).
Proof.
  destruct (Py.blank s) eqn:Hb; simpl.
  - apply truthy_false_iff, strip_empty_iff, Hb.
  - destruct (Py.truthy (Py.strip s)) eqn:Ht; [done|].
    apply truthy_false_iff, strip_empty_iff in Ht. congruence.
Qed.

(** ** Runs of the services *)

Section Runs.

Context `{IdFormat} `{Provider}.

Lemma lookup_set_if (b : bool) (k v k' : string) (s : gmap string string) :
  set_if b k v s !! k' =
  if b && bool_decide (k = k') then Some v else s !! k'.
Proof.
  unfold set_if. destruct b; simpl; [|done].
  rewrite lookup_insert. destruct (decide (k = k')) as [Hk|Hk].
  - by rewrite bool_decide_eq_true_2.
  - by rewrite bool_decide_eq_false_2.
Qed.

(** Deleting an empty [$set] does not change what the update sets. *)
Lemma default_removed_set (s : gmap string string) :
  default ∅ (if bool_decide (s = ∅) then None else Some s) = s.
Proof. by case_bool_decide. Qed.

(** A malformed id stops every id-taking service at once. *)
Lemma post_message_invalid (w : World) prompt chat_id :
  is_valid chat_id = false →
  post_message_by_chat_id prompt chat_id w =
  (inl (HTTPException 400 "Invalid chat ID"), w).
Proof. intros Hv. unfold post_message_by_chat_id. by rewrite Hv. Qed.

(** The provider fails: its exception escapes, nothing was looked up. *)
Lemma post_message_upstream (w : World) prompt chat_id e a :
  is_valid chat_id = true →
  get_ai_response (input prompt) chat_id (ai_state w) = (inl e, a) →
  post_message_by_chat_id prompt chat_id w =
  (inl e, {| chats := chats w; ai_state := a;
             trace := trace w ++ [EvAiResponse (input prompt) chat_id] |}).
Proof.
  intros Hv Hr. unfold post_message_by_chat_id. rewrite Hv. simpl.
  unfold mbind, M_bind, await_ai_response. by rewrite Hr.
Qed.

(** The provider answers, the chat is absent. *)
Lemma post_message_absent (w : World) prompt chat_id r a :
  is_valid chat_id = true →
  get_ai_response (input prompt) chat_id (ai_state w) = (inr r, a) →
  chats w !! ObjectId chat_id = None →
  post_message_by_chat_id prompt chat_id w =
  (inl (HTTPException 404 "Chat not found"),
   {| chats := chats w; ai_state := a;
      trace := trace w ++ [EvAiResponse (input prompt) chat_id;
                           EvFindOne (ObjectId chat_id)] |}).
Proof.
  intros Hv Hr Hd. unfold post_message_by_chat_id. rewrite Hv. simpl.
  unfold mbind, M_bind, await_ai_response. rewrite Hr. simpl.
  unfold find_one. simpl. rewrite Hd. simpl. unfold raise, log. simpl.
  by rewrite <- app_assoc.
Qed.

(** The provider answers, the chat is there: the turn is stored. *)
Lemma post_message_present (w : World) prompt chat_id r a d :
  is_valid chat_id = true →
  get_ai_response (input prompt) chat_id (ai_state w) = (inr r, a) →
  chats w !! ObjectId chat_id = Some d →
  post_message_by_chat_id prompt chat_id w =
  (inr {| p_name := d_name (posted (input prompt) r d);
          p_message := {| content := explanation r; type := AI |};
          p_code := {| html := r_html r; css := r_css r; js := r_js r |} |},
   {| chats := <[ObjectId chat_id := posted (input prompt) r d]> (chats w);
      ai_state := a;
      trace := trace w ++ [EvAiResponse (input prompt) chat_id;
                           EvFindOne (ObjectId chat_id);
                           EvUpdateOne (ObjectId chat_id) true] |}).
Proof.
  intros Hv Hr Hd. unfold post_message_by_chat_id. rewrite Hv. simpl.
  unfold mbind, M_bind, await_ai_response. rewrite Hr. simpl.
  unfold find_one. simpl. rewrite Hd. simpl.
  unfold update_one. simpl. rewrite Hd. simpl.
  unfold mret, M_ret, log, with_chats. simpl.
  unfold apply_update, posted, turn, set_field, New_Chat. simpl.
  rewrite default_removed_set, !lookup_set_if, !lookup_empty.
  rewrite !truthy_strip. simpl. rewrite !andb_false_r. simpl.
  rewrite !andb_true_r.
  rewrite <- !app_assoc. simpl.
  destruct (bool_decide (d_name d = Some "New Chat")),
    (Py.blank (r_html r)), (Py.blank (r_css r)), (Py.blank (r_js r));
    reflexivity.
Qed.

End Runs.

(** ** The other services on a well-formed id *)

Section OtherRuns.

Context `{IdFormat} `{Provider}.

Lemma rename_present (w : World) chat_id name d :
  is_valid chat_id = true →
  chats w !! ObjectId chat_id = Some d →
  rename_chat_by_id chat_id name w =
  (inr "Chat renamed successfully.",
   {| chats := <[ObjectId chat_id :=
                   {| d_userId := d_userId d; d_name := Some name;
                      d_messages := d_messages d; d_html := d_html d;
                      d_css := d_css d; d_js := d_js d |}]> (chats w);
      ai_state := ai_state w;
      trace := trace w ++ [EvUpdateOne (ObjectId chat_id) false] |}).
Proof.
  intros Hv Hd. unfold rename_chat_by_id. rewrite Hv. simpl.
  unfold mbind, M_bind, update_one. rewrite Hd. simpl.
  unfold mret, M_ret, log, with_chats, apply_update, set_field. simpl.
  rewrite lookup_singleton_eq, !lookup_singleton_ne by done.
  by rewrite app_nil_r.
Qed.

Lemma rename_absent (w : World) chat_id name :
  is_valid chat_id = true →
  chats w !! ObjectId chat_id = None →
  rename_chat_by_id chat_id name w =
  (inl (HTTPException 404 "Chat not found"),
   log (EvUpdateOne (ObjectId chat_id) false) w).
Proof.
  intros Hv Hd. unfold rename_chat_by_id. rewrite Hv. simpl.
  unfold mbind, M_bind, update_one. by rewrite Hd.
Qed.

Lemma get_absent (w : World) chat_id :
  is_valid chat_id = true →
  chats w !! ObjectId chat_id = None →
  get_chat_by_id chat_id w =
  (inl (HTTPException 404 "Chat not found"),
   log (EvFindOne (ObjectId chat_id)) w).
Proof.
  intros Hv Hd. unfold get_chat_by_id. rewrite Hv. simpl.
  unfold mbind, M_bind, find_one. by rewrite Hd.
Qed.

Lemma get_present (w : World) chat_id d :
  is_valid chat_id = true →
  chats w !! ObjectId chat_id = Some d →
  get_chat_by_id chat_id w =
  (inr (ObjectId chat_id, d), log (EvFindOne (ObjectId chat_id)) w).
Proof.
  intros Hv Hd. unfold get_chat_by_id. rewrite Hv. simpl.
  unfold mbind, M_bind, find_one. by rewrite Hd.
Qed.

Lemma delete_absent (w : World) chat_id :
  is_valid chat_id = true →
  chats w !! ObjectId chat_id = None →
  delete_chat_by_id chat_id w =
  (inl (HTTPException 404 "Chat not found"),
   log (EvDeleteOne (ObjectId chat_id)) w).
Proof.
  intros Hv Hd. unfold delete_chat_by_id. rewrite Hv. simpl.
  unfold mbind, M_bind, delete_one. by rewrite Hd.
Qed.

Lemma delete_present (w : World) chat_id d :
  is_valid chat_id = true →
  chats w !! ObjectId chat_id = Some d →
  delete_chat_by_id chat_id w =
  (inr "Chat deleted successfully.",
   log (EvDeleteOne (ObjectId chat_id))
       (with_chats (delete (ObjectId chat_id) (chats w)) w)).
Proof.
  intros Hv Hd. unfold delete_chat_by_id. rewrite Hv. simpl.
  unfold mbind, M_bind, delete_one. by rewrite Hd.
Qed.

(** Creating a chat stores the dumped model under a fresh id. *)
Lemma create_chat_run (w : World) user_id (name : option string) :
  let _id := fresh (dom (chats w)) in
  let d := model_dump (new_Chat user_id (default New_Chat name)) in
  chats w !! _id = None ∧
  create_chat_by_user_id user_id name w =
  (inr (_id, d), log (EvInsertOne _id) (with_chats (<[_id := d]> (chats w)) w)).
Proof.
  simpl. split; [|done]. apply not_elem_of_dom. apply is_fresh.
Qed.

(** An upsert on an absent record writes a record and reports no match:
    the guard of [post_message_by_chat_id] on [matched_count] can only
    fire after such a write. *)
Lemma update_one_upsert_absent (w : World) _id u :
  chats w !! _id = None →
  update_one _id u true w =
  (inr {| matched_count := 0; upserted_id := Some _id |},
   log (EvUpdateOne _id true)
       (with_chats (<[_id := apply_update u empty_document]> (chats w)) w)).
Proof. intros Hd. unfold update_one. by rewrite Hd. Qed.

(** The cursor of [find] is never [None]: listing never raises. *)
Lemma get_chats_by_user_id_returns (w : World) user_id :
  get_chats_by_user_id user_id w =
  (inr (filter (λ r : Record_, d_userId r.2 = Some user_id)
               (map_to_list (chats w))),
   log (EvFind user_id) w).
Proof.
  unfold get_chats_by_user_id, mbind, M_bind, find. simpl.
  unfold mret, M_ret, all_chats, basic_chat. by rewrite list_fmap_id.
Qed.

Lemma since_app (w : World) (c : gmap oid Document) (a : AiState) evs :
  since w {| chats := c; ai_state := a; trace := trace w ++ evs |} = evs.
Proof. unfold since. simpl. by rewrite drop_app_length. Qed.

(** Every call to a collaborator leaves an event: a run whose final trace
    is the initial one has called neither the store nor the provider. *)
Lemma collaborators_leave_a_trace (w : World) :
  (∀ user_id, since w (after (find user_id) w) = [EvFind user_id]) ∧
  (∀ _id, since w (after (find_one _id) w) = [EvFindOne _id]) ∧
  (∀ d, ∃ _id, since w (after (insert_one d) w) = [EvInsertOne _id]) ∧
  (∀ _id u upsert,
     since w (after (update_one _id u upsert) w) = [EvUpdateOne _id upsert]) ∧
  (∀ _id, since w (after (delete_one _id) w) = [EvDeleteOne _id]) ∧
  (∀ prompt chat_id,
     since w (after (await_ai_response prompt chat_id) w)
     = [EvAiResponse prompt chat_id]).
Proof.
  unfold after, find, find_one, insert_one, update_one, delete_one,
    await_ai_response, log, with_chats.
  repeat split; intros.
  - apply since_app.
  - apply since_app.
  - eexists. simpl. apply since_app.
  - destruct (chats w !! _id), upsert; simpl; apply since_app.
  - destruct (chats w !! _id); simpl; apply since_app.
  - destruct (get_ai_response prompt chat_id (ai_state w)). simpl.
    apply since_app.
Qed.

Lemma since_refl (w : World) : since w w = [].
Proof. unfold since. apply drop_all. Qed.

End OtherRuns.

(** ** Errors on chat ids *)

Section IdErrors.

Context `{IdFormat} `{Provider}.

(** C5. For every malformed chat id, rename, get, delete and post-message
    all raise the same InvalidArgument exception (HTTP 400) and leave the
    world exactly as it was: no call to the store and none to the AI
    provider is recorded.  That exception is not a NotFound. *)
Theorem malformed_id_is_invalid_argument (w : World) (chat_id : string) :
  is_valid chat_id = false →
  ∃ e : Exn,
    InvalidArgument e ∧ ¬ NotFound e ∧
    (∀ name, rename_chat_by_id chat_id name w = (inl e, w)) ∧
    get_chat_by_id chat_id w = (inl e, w) ∧
    delete_chat_by_id chat_id w = (inl e, w) ∧
    (∀ prompt, post_message_by_chat_id prompt chat_id w = (inl e, w)).
Proof.
  intros Hv. exists (HTTPException 400 "Invalid chat ID").
  split; [by eexists|]. split.
  { intros [detail Hd]. discriminate Hd. }
  unfold rename_chat_by_id, get_chat_by_id, delete_chat_by_id.
  rewrite Hv. simpl. repeat split; try done.
  intros prompt. by apply post_message_invalid.
Qed.

(** C4, amended. For every well-formed chat id that matches no record,
    rename, get and delete raise NotFound; post-message never returns a
    result: it raises NotFound when the AI provider has answered, and the
    provider's own exception when the provider fails, the provider being
    called before the lookup.  None of the four changes the collection. *)
Theorem missing_chat_is_not_found (w : World) (chat_id : string) :
  is_valid chat_id = true →
  stored w chat_id = None →
  (∀ name, fails_with NotFound (rename_chat_by_id chat_id name) w ∧
           chats (after (rename_chat_by_id chat_id name) w) = chats w) ∧
  (fails_with NotFound (get_chat_by_id chat_id) w ∧
   chats (after (get_chat_by_id chat_id) w) = chats w) ∧
  (fails_with NotFound (delete_chat_by_id chat_id) w ∧
   chats (after (delete_chat_by_id chat_id) w) = chats w) ∧
  (∀ prompt,
     (∃ e, outcome (post_message_by_chat_id prompt chat_id) w = inl e) ∧
     (∀ r a,
        get_ai_response (input prompt) chat_id (ai_state w) = (inr r, a) →
        fails_with NotFound (post_message_by_chat_id prompt chat_id) w) ∧
     (∀ e a,
        get_ai_response (input prompt) chat_id (ai_state w) = (inl e, a) →
        outcome (post_message_by_chat_id prompt chat_id) w = inl e) ∧
     chats (after (post_message_by_chat_id prompt chat_id) w) = chats w).
Proof.
  intros Hv Hd. unfold stored in Hd.
  assert (NotFound (HTTPException 404 "Chat not found")) as Hnf
    by (by eexists).
  unfold fails_with, outcome, after. repeat split.
  - rewrite rename_absent by done. eauto.
  - by rewrite rename_absent.
  - rewrite get_absent by done. eauto.
  - by rewrite get_absent.
  - rewrite delete_absent by done. eauto.
  - by rewrite delete_absent.
  - destruct (get_ai_response (input prompt) chat_id (ai_state w))
      as [[e|r] a] eqn:Hr.
    + rewrite (post_message_upstream _ _ _ _ _ Hv Hr). eauto.
    + rewrite (post_message_absent _ _ _ _ _ Hv Hr Hd). eauto.
  - intros r a Hr. rewrite (post_message_absent _ _ _ _ _ Hv Hr Hd). eauto.
  - intros e a Hr. by rewrite (post_message_upstream _ _ _ _ _ Hv Hr).
  - destruct (get_ai_response (input prompt) chat_id (ai_state w))
      as [[e|r] a] eqn:Hr.
    + by rewrite (post_message_upstream _ _ _ _ _ Hv Hr).
    + by rewrite (post_message_absent _ _ _ _ _ Hv Hr Hd).
Qed.

End IdErrors.

Lemma malformed_id_is_invalid_argument_witness :
  @is_valid Hex24.format Demo.bad = false ∧
  ∃ e : Exn,
    InvalidArgument e ∧ ¬ NotFound e ∧
    (∀ name, rename_chat_by_id Demo.bad name Demo.one = (inl e, Demo.one)) ∧
    get_chat_by_id Demo.bad Demo.one = (inl e, Demo.one) ∧
    delete_chat_by_id Demo.bad Demo.one = (inl e, Demo.one) ∧
    (∀ prompt,
       post_message_by_chat_id prompt Demo.bad Demo.one = (inl e, Demo.one)).
Proof.
  split; [reflexivity|].
  apply (@malformed_id_is_invalid_argument Hex24.format Scripted.provider
           Demo.one Demo.bad).
  reflexivity.
Defined.

Lemma missing_chat_is_not_found_witness :
  @is_valid Hex24.format Demo.cid = true ∧
  stored Demo.empty Demo.cid = None ∧
  fails_with NotFound (get_chat_by_id Demo.cid) Demo.empty ∧
  fails_with NotFound (post_message_by_chat_id Demo.build Demo.cid) Demo.empty.
Proof.
  split; [reflexivity|]. split; [reflexivity|].
  destruct (@missing_chat_is_not_found Hex24.format Scripted.provider
              Demo.empty Demo.cid eq_refl eq_refl)
    as (_ & [Hget _] & _ & Hpost).
  split; [exact Hget|].
  destruct (Hpost Demo.build) as (_ & Hnf & _).
  exact (Hnf Demo.button [inr Demo.button] eq_refl).
Defined.

(** C4 as stated fails in two ways.  With a well-formed id that matches no
    record and a provider that fails, post-message raises the provider's
    exception, which is not a NotFound.  And a malformed id, which matches
    no record either (here there is none at all), is answered with HTTP
    400, not with NotFound. *)
Lemma missing_chat_other_errors_counterexample :
  (@is_valid Hex24.format Demo.cid = true ∧
   stored Cases.gone Demo.cid = None ∧
   outcome (post_message_by_chat_id Demo.build Demo.cid) Cases.gone
     = inl (UpstreamFailure "quota exceeded") ∧
   ¬ fails_with NotFound (post_message_by_chat_id Demo.build Demo.cid)
       Cases.gone) ∧
  (chats Cases.gone = ∅ ∧
   outcome (get_chat_by_id Demo.bad) Cases.gone
     = inl (HTTPException 400 "Invalid chat ID") ∧
   ¬ fails_with NotFound (get_chat_by_id Demo.bad) Cases.gone).
Proof.
  repeat split; try reflexivity.
  - intros (e & He & detail & ->). vm_compute in He. discriminate He.
  - intros (e & He & detail & ->). vm_compute in He. discriminate He.
Qed.

(** ** Posting a message *)

Section PostMessage.

Context `{IdFormat} `{Provider}.

Lemma field_rule_blank (returned : string) (old : option string) :
  field_rule returned old
    (if Py.blank returned then old else Some returned).
Proof.
  unfold field_rule. destruct (Py.blank returned) eqn:Hb; split; try done.
  - intros Hs. by apply strip_empty_iff in Hb.
  - intros Hs%strip_empty_iff. congruence.
Qed.

(** C1. When a prompt is posted to an existing chat and the provider
    answers, each of the stored fields html, css and js becomes the
    provider's value if that value is not blank once stripped of white
    space, and keeps its previous value if it is blank. *)
Theorem post_message_code_fields (w : World) prompt chat_id r a d :
  is_valid chat_id = true →
  get_ai_response (input prompt) chat_id (ai_state w) = (inr r, a) →
  stored w chat_id = Some d →
  ∃ d',
    stored (after (post_message_by_chat_id prompt chat_id) w) chat_id
      = Some d' ∧
    field_rule (r_html r) (d_html d) (d_html d') ∧
    field_rule (r_css r) (d_css d) (d_css d') ∧
    field_rule (r_js r) (d_js d) (d_js d').
Proof.
  intros Hv Hr Hd. exists (posted (input prompt) r d).
  unfold stored, after. rewrite (post_message_present _ _ _ _ _ _ Hv Hr Hd).
  simpl. rewrite lookup_insert_eq.
  repeat split; try apply field_rule_blank; done.
Qed.

(** C3. When a prompt P is posted to an existing chat and the provider
    answers, the stored message sequence is the previous one followed by
    exactly two entries: the USER message with content P, then the AI
    message with the provider's explanation. *)
Theorem post_message_appends_turn (w : World) prompt chat_id r a d :
  is_valid chat_id = true →
  get_ai_response (input prompt) chat_id (ai_state w) = (inr r, a) →
  stored w chat_id = Some d →
  ∃ d',
    stored (after (post_message_by_chat_id prompt chat_id) w) chat_id
      = Some d' ∧
    d_messages d' =
      (d_messages d ++ [ {| content := input prompt; type := USER |};
                         {| content := explanation r; type := AI |} ])%list ∧
    length (d_messages d') = length (d_messages d) + 2.
Proof.
  intros Hv Hr Hd. exists (posted (input prompt) r d).
  unfold stored, after. rewrite (post_message_present _ _ _ _ _ _ Hv Hr Hd).
  simpl. rewrite lookup_insert_eq. split; [done|]. split; [done|].
  by rewrite length_app.
Qed.

(** As long as no other client acts on the collection between the lookup
    and the update, a run of post-message either returns, and then the
    whole update of the turn has been applied to the chat's record, or
    raises, and then the collection is unchanged and no writing call was
    made.  The section on other clients, below, shows what the upsert does
    otherwise. *)
Theorem post_message_all_or_nothing (w : World) prompt chat_id :
  let w' := after (post_message_by_chat_id prompt chat_id) w in
  (∃ x r a d,
      outcome (post_message_by_chat_id prompt chat_id) w = inr x ∧
      get_ai_response (input prompt) chat_id (ai_state w) = (inr r, a) ∧
      stored w chat_id = Some d ∧
      chats w' = <[ObjectId chat_id := posted (input prompt) r d]> (chats w))
  ∨
  (∃ e,
      outcome (post_message_by_chat_id prompt chat_id) w = inl e ∧
      chats w' = chats w ∧
      Forall (λ ev, is_write ev = false) (since w w')).
Proof.
  unfold outcome, after, stored. simpl.
  destruct (is_valid chat_id) eqn:Hv.
  - destruct (get_ai_response (input prompt) chat_id (ai_state w))
      as [[e|r] a] eqn:Hr.
    + right. exists e. rewrite (post_message_upstream _ _ _ _ _ Hv Hr).
      simpl. rewrite since_app. repeat split; try done.
      by repeat constructor.
    + destruct (chats w !! ObjectId chat_id) as [d|] eqn:Hd.
      * left. rewrite (post_message_present _ _ _ _ _ _ Hv Hr Hd).
        simpl. eauto 10.
      * right. rewrite (post_message_absent _ _ _ _ _ Hv Hr Hd).
        simpl. rewrite since_app. eexists. repeat split; try done.
        by repeat constructor.
  - right. rewrite (post_message_invalid _ _ _ Hv). simpl.
    rewrite since_refl. eauto.
Qed.

(** C7, amended. Whenever post-message returns, its result holds the name
    the chat has after the call (the prompt if the stored name was the
    sentinel, else the stored name), the AI message, and the code made of
    the provider's three values exactly as they came, not of the stored
    ones.  So each returned code field either is what the store now holds,
    or the store has kept its former value and the returned field is the
    provider's blank value: the empty string or the white space it sent. *)
Theorem post_message_result (w : World) prompt chat_id x :
  outcome (post_message_by_chat_id prompt chat_id) w = inr x →
  ∃ r a d d',
    get_ai_response (input prompt) chat_id (ai_state w) = (inr r, a) ∧
    stored w chat_id = Some d ∧
    stored (after (post_message_by_chat_id prompt chat_id) w) chat_id
      = Some d' ∧
    p_name x = d_name d' ∧
    p_name x = (if bool_decide (d_name d = Some New_Chat)
                then Some (input prompt) else d_name d) ∧
    p_message x = {| content := explanation r; type := AI |} ∧
    p_code x = {| html := r_html r; css := r_css r; js := r_js r |} ∧
    (d_html d' = Some (html (p_code x)) ∨
     d_html d' = d_html d ∧ html (p_code x) = r_html r ∧
     Py.blank (r_html r) = true) ∧
    (d_css d' = Some (css (p_code x)) ∨
     d_css d' = d_css d ∧ css (p_code x) = r_css r ∧
     Py.blank (r_css r) = true) ∧
    (d_js d' = Some (js (p_code x)) ∨
     d_js d' = d_js d ∧ js (p_code x) = r_js r ∧
     Py.blank (r_js r) = true).
Proof.
  unfold outcome, after, stored.
  destruct (is_valid chat_id) eqn:Hv;
    [|by rewrite (post_message_invalid _ _ _ Hv)].
  destruct (get_ai_response (input prompt) chat_id (ai_state w))
    as [[e|r] a] eqn:Hr;
    [by rewrite (post_message_upstream _ _ _ _ _ Hv Hr)|].
  destruct (chats w !! ObjectId chat_id) as [d|] eqn:Hd;
    [|by rewrite (post_message_absent _ _ _ _ _ Hv Hr Hd)].
  rewrite (post_message_present _ _ _ _ _ _ Hv Hr Hd). simpl.
  intros [= <-]. exists r, a, d, (posted (input prompt) r d).
  rewrite lookup_insert_eq. simpl.
  repeat split; try done;
    match goal with
    | |- (if Py.blank ?v then _ else _) = _ ∨ _ =>
        destruct (Py.blank v) eqn:Hb; [by right|by left]
    end.
Qed.

End PostMessage.

Lemma post_message_code_fields_witness :
  @is_valid Hex24.format Demo.cid = true ∧
  Scripted.respond (input Demo.build) Demo.cid (ai_state Demo.one)
    = (inr Demo.button, [inr Demo.button]) ∧
  stored Demo.one Demo.cid = Some Demo.styled ∧
  ∃ d',
    stored (after (post_message_by_chat_id Demo.build Demo.cid) Demo.one)
      Demo.cid = Some d' ∧
    field_rule "<button>" (Some "<p>") (d_html d') ∧
    field_rule "" (Some "p{color:blue}") (d_css d') ∧
    field_rule "" (Some "") (d_js d').
Proof.
  split; [reflexivity|]. split; [reflexivity|]. split; [reflexivity|].
  apply (@post_message_code_fields Hex24.format Scripted.provider
           Demo.one Demo.build Demo.cid Demo.button [inr Demo.button]
           Demo.styled); reflexivity.
Defined.

Lemma post_message_appends_turn_witness :
  @is_valid Hex24.format Demo.cid = true ∧
  Scripted.respond (input Demo.build) Demo.cid (ai_state Demo.one)
    = (inr Demo.button, [inr Demo.button]) ∧
  stored Demo.one Demo.cid = Some Demo.styled ∧
  ∃ d',
    stored (after (post_message_by_chat_id Demo.build Demo.cid) Demo.one)
      Demo.cid = Some d' ∧
    d_messages d' =
      [ {| content := "make it blue"; type := USER |};
        {| content := "Done"; type := AI |};
        {| content := "build a button"; type := USER |};
        {| content := "Here"; type := AI |} ] ∧
    length (d_messages d') = 4.
Proof.
  split; [reflexivity|]. split; [reflexivity|]. split; [reflexivity|].
  apply (@post_message_appends_turn Hex24.format Scripted.provider
           Demo.one Demo.build Demo.cid Demo.button [inr Demo.button]
           Demo.styled); reflexivity.
Defined.

Lemma post_message_result_witness :
  outcome (post_message_by_chat_id Demo.build Demo.cid) Demo.one
    = inr {| p_name := Some "My page";
             p_message := {| content := "Here"; type := AI |};
             p_code := {| html := "<button>"; css := ""; js := "" |} |} ∧
  ∃ d',
    stored (after (post_message_by_chat_id Demo.build Demo.cid) Demo.one)
      Demo.cid = Some d' ∧
    d_name d' = Some "My page" ∧
    (d_html d' = Some "<button>" ∨
     d_html d' = Some "<p>" ∧ "<button>" = "<button>" ∧
     Py.blank "<button>" = true) ∧
    (d_css d' = Some "" ∨
     d_css d' = Some "p{color:blue}" ∧ "" = "" ∧ Py.blank "" = true).
Proof.
  split; [reflexivity|].
  destruct (@post_message_result Hex24.format Scripted.provider
              Demo.one Demo.build Demo.cid _ eq_refl)
    as (r & a & d & d' & Hr & Hd & Hd' & Hn & _ & _ & _ & Hhtml & Hcss & _).
  exists d'. split; [exact Hd'|].
  injection Hr as <- _. injection Hd as <-.
  split; [symmetry; exact Hn|]. split; [exact Hhtml|exact Hcss].
Defined.

(** C7 as stated fails when the provider sends white space only for a
    field: the stored html is left as it was, and the html returned is that
    white space, not the empty default. *)
Lemma blank_echo_counterexample :
  d_html <$> stored Cases.chatty Demo.cid = Some (Some "<p>") ∧
  d_html <$> stored (after (post_message_by_chat_id {| input := "thanks" |}
                              Demo.cid) Cases.chatty) Demo.cid
    = Some (Some "<p>") ∧
  html <$> (p_code <$> value (outcome (post_message_by_chat_id
                                         {| input := "thanks" |} Demo.cid)
                                Cases.chatty))
    = Some "  " ∧
  "  " ≠ html (code (new_Chat "u1" New_Chat)).
Proof.
  repeat split; try reflexivity. discriminate.
Qed.

(** ** Creating and listing chats *)

Section CreateAndList.

Context `{IdFormat} `{Provider}.

(** C9. For every user id, create-chat returns: its result carries an id
    generated by the store (one that named no record before), the given
    user id, the given name or "New Chat" when none is given, no message
    and three empty code fields; the record is stored under that id. *)
Theorem create_chat_returns_summary (w : World) user_id (name : option string) :
  let _id := fresh (dom (chats w)) in
  let d := {| d_userId := Some user_id;
              d_name := Some (default New_Chat name);
              d_messages := [];
              d_html := Some ""; d_css := Some ""; d_js := Some "" |} in
  chats w !! _id = None ∧
  outcome (create_chat_by_user_id user_id name) w = inr (_id, d) ∧
  chats (after (create_chat_by_user_id user_id name) w)
    = <[_id := d]> (chats w).
Proof.
  intros _id d. destruct (create_chat_run w user_id name) as [Hnew Hrun].
  cbv zeta in Hrun. unfold outcome, after. rewrite Hrun. done.
Qed.

(** C8, as the code behaves: when no record matches the user id, the
    query is not treated as a failure; list-chats returns the empty
    collection. *)
Theorem list_chats_without_match (w : World) user_id :
  (∀ _id d, chats w !! _id = Some d → d_userId d ≠ Some user_id) →
  outcome (get_chats_by_user_id user_id) w = inr [] ∧
  ¬ fails_with NotFound (get_chats_by_user_id user_id) w.
Proof.
  intros Hno. unfold fails_with, outcome.
  rewrite get_chats_by_user_id_returns. simpl.
  split; [|by intros (e & [=] & _)].
  f_equal.
  assert (Forall (λ r : Record_, d_userId r.2 ≠ Some user_id)
            (map_to_list (chats w))) as Hall.
  { apply Forall_forall. intros [_id d] Hin%elem_of_map_to_list.
    simpl. by apply (Hno _id). }
  induction Hall as [|r l Hr _ IH]; [done|].
  by rewrite filter_cons_False.
Qed.

End CreateAndList.

Lemma list_chats_without_match_witness :
  (∀ _id d, chats Demo.empty !! _id = Some d → d_userId d ≠ Some "u1") ∧
  outcome (get_chats_by_user_id "u1") Demo.empty = inr [] ∧
  ¬ fails_with NotFound (get_chats_by_user_id "u1") Demo.empty.
Proof.
  assert (∀ _id d, chats Demo.empty !! _id = Some d → d_userId d ≠ Some "u1")
    as Hno.
  { intros _id d Hd. exfalso. revert Hd.
    change (chats Demo.empty) with (∅ : gmap N Document).
    rewrite lookup_empty. discriminate. }
  split; [exact Hno|].
  exact (@list_chats_without_match Hex24.format Scripted.provider
           Demo.empty "u1" Hno).
Defined.

(** ** The automatic rename *)

Section AutoRename.

Context `{IdFormat} `{Provider}.

(** The name of a chat after a turn depends on the stored name alone. *)
Lemma post_message_name (w : World) prompt chat_id r a d :
  is_valid chat_id = true →
  get_ai_response (input prompt) chat_id (ai_state w) = (inr r, a) →
  stored w chat_id = Some d →
  stored_name (after (post_message_by_chat_id prompt chat_id) w) chat_id
  = (if bool_decide (d_name d = Some New_Chat) then Some (input prompt)
     else d_name d) ∧
  p_name <$> value (outcome (post_message_by_chat_id prompt chat_id) w)
  = Some (if bool_decide (d_name d = Some New_Chat) then Some (input prompt)
          else d_name d) ∧
  ai_state (after (post_message_by_chat_id prompt chat_id) w) = a.
Proof.
  intros Hv Hr Hd. unfold stored_name, stored, after, outcome.
  rewrite (post_message_present _ _ _ _ _ _ Hv Hr Hd). simpl.
  by rewrite lookup_insert_eq.
Qed.

(** C10. Whether post-message renames a chat depends on the stored name
    alone, whatever messages the chat holds: the name after the call is
    the prompt if the stored name is "New Chat", and the stored name
    otherwise.  So once a chat has been renamed to "New Chat" through the
    rename operation, the next prompt posted becomes its name. *)
Theorem rename_decided_by_stored_name (w : World) prompt chat_id r a d :
  is_valid chat_id = true →
  get_ai_response (input prompt) chat_id (ai_state w) = (inr r, a) →
  stored w chat_id = Some d →
  stored_name (after (post_message_by_chat_id prompt chat_id) w) chat_id
    = (if bool_decide (d_name d = Some New_Chat) then Some (input prompt)
       else d_name d) ∧
  let w1 := after (rename_chat_by_id chat_id New_Chat) w in
  outcome (rename_chat_by_id chat_id New_Chat) w
    = inr "Chat renamed successfully." ∧
  stored_name w1 chat_id = Some New_Chat ∧
  d_messages <$> stored w1 chat_id = Some (d_messages d) ∧
  stored_name (after (post_message_by_chat_id prompt chat_id) w1) chat_id
    = Some (input prompt) ∧
  p_name <$> value (outcome (post_message_by_chat_id prompt chat_id) w1)
    = Some (Some (input prompt)).
Proof.
  intros Hv Hr Hd.
  split; [by apply (post_message_name w prompt chat_id r a d)|].
  intros w1. unfold stored in Hd.
  pose proof (rename_present w chat_id New_Chat d Hv Hd) as Hren.
  assert (stored w1 chat_id
          = Some {| d_userId := d_userId d; d_name := Some New_Chat;
                    d_messages := d_messages d; d_html := d_html d;
                    d_css := d_css d; d_js := d_js d |}) as Hd1.
  { unfold stored, w1, after. rewrite Hren. simpl.
    by rewrite lookup_insert_eq. }
  assert (ai_state w1 = ai_state w) as Ha1.
  { unfold w1, after. by rewrite Hren. }
  split; [unfold outcome; by rewrite Hren|].
  unfold stored_name at 1. rewrite Hd1. simpl.
  split; [done|]. split; [done|].
  rewrite <- Ha1 in Hr.
  destruct (post_message_name w1 prompt chat_id r a _ Hv Hr Hd1)
    as (Hn & Ho & _).
  simpl in Hn, Ho. rewrite ?bool_decide_eq_true_2 in Hn, Ho by done.
  done.
Qed.

(** C2, amended. A chat created without a name is named "New Chat".  The
    first prompt posted to it becomes its name, letter for letter.  If
    that prompt is not itself "New Chat", a second posted prompt leaves
    the name as the first prompt set it. *)
Theorem first_prompt_names_chat
    (w : World) user_id chat_id p1 p2 r1 a1 r2 a2 :
  let w0 := after (create_chat_by_user_id user_id None) w in
  let w1 := after (post_message_by_chat_id p1 chat_id) w0 in
  let w2 := after (post_message_by_chat_id p2 chat_id) w1 in
  is_valid chat_id = true →
  fst <$> value (outcome (create_chat_by_user_id user_id None) w)
    = Some (ObjectId chat_id) →
  get_ai_response (input p1) chat_id (ai_state w) = (inr r1, a1) →
  get_ai_response (input p2) chat_id a1 = (inr r2, a2) →
  input p1 ≠ New_Chat →
  stored_name w0 chat_id = Some New_Chat ∧
  stored_name w1 chat_id = Some (input p1) ∧
  p_name <$> value (outcome (post_message_by_chat_id p1 chat_id) w0)
    = Some (Some (input p1)) ∧
  stored_name w2 chat_id = Some (input p1) ∧
  p_name <$> value (outcome (post_message_by_chat_id p2 chat_id) w1)
    = Some (Some (input p1)).
Proof.
  intros w0 w1 w2 Hv Hid Hr1 Hr2 Hne.
  destruct (create_chat_run w user_id None) as [_ Hrun]. cbv zeta in Hrun.
  unfold outcome in Hid. rewrite Hrun in Hid. simpl in Hid.
  injection Hid as Hid.
  assert (stored w0 chat_id = Some (model_dump (new_Chat user_id New_Chat)))
    as Hd0.
  { unfold stored, w0, after. rewrite Hrun, <- Hid. simpl.
    by rewrite lookup_insert_eq. }
  assert (ai_state w0 = ai_state w) as Ha0 by done.
  rewrite <- Ha0 in Hr1.
  destruct (post_message_name w0 p1 chat_id r1 a1 _ Hv Hr1 Hd0)
    as (Hn1 & Ho1 & Ha1).
  simpl in Hn1, Ho1. rewrite ?bool_decide_eq_true_2 in Hn1, Ho1 by done.
  fold w1 in Hn1, Ha1.
  split; [by unfold stored_name; rewrite Hd0|].
  split; [exact Hn1|]. split; [exact Ho1|].
  unfold stored_name in Hn1.
  destruct (stored w1 chat_id) as [d1|] eqn:Hd1; [|done]. simpl in Hn1.
  rewrite <- Ha1 in Hr2.
  destruct (post_message_name w1 p2 chat_id r2 a2 d1 Hv Hr2 Hd1)
    as (Hn2 & Ho2 & _).
  rewrite Hn1 in Hn2, Ho2.
  rewrite bool_decide_eq_false_2 in Hn2, Ho2 by congruence.
  done.
Qed.

End AutoRename.

Lemma rename_decided_by_stored_name_witness :
  @is_valid Hex24.format Demo.cid = true ∧
  Scripted.respond (input Demo.build) Demo.cid (ai_state Demo.one)
    = (inr Demo.button, [inr Demo.button]) ∧
  stored Demo.one Demo.cid = Some Demo.styled ∧
  stored_name (after (post_message_by_chat_id Demo.build Demo.cid) Demo.one)
    Demo.cid = Some "My page" ∧
  stored_name Demo.reset Demo.cid = Some "New Chat" ∧
  stored_name (after (post_message_by_chat_id Demo.build Demo.cid) Demo.reset)
    Demo.cid = Some "build a button".
Proof.
  split; [reflexivity|]. split; [reflexivity|]. split; [reflexivity|].
  destruct (@rename_decided_by_stored_name Hex24.format Scripted.provider
              Demo.one Demo.build Demo.cid Demo.button [inr Demo.button]
              Demo.styled eq_refl eq_refl eq_refl)
    as (Hkeep & _ & Hreset & _ & Hnew & _).
  split; [exact Hkeep|]. split; [exact Hreset|]. exact Hnew.
Defined.

Lemma first_prompt_names_chat_witness :
  @is_valid Hex24.format Demo.cid = true ∧
  fst <$> value (outcome (create_chat_by_user_id "u1" None) Demo.empty)
    = Some (@ObjectId Hex24.format Demo.cid) ∧
  Scripted.respond (input Demo.build) Demo.cid (ai_state Demo.empty)
    = (inr Demo.button, [inr Demo.button]) ∧
  Scripted.respond (input Demo.hello) Demo.cid [inr Demo.button]
    = (inr Demo.button, []) ∧
  input Demo.build ≠ New_Chat ∧
  stored_name Demo.created Demo.cid = Some "New Chat" ∧
  stored_name Demo.built Demo.cid = Some "build a button" ∧
  stored_name Demo.built_hello Demo.cid = Some "build a button".
Proof.
  split; [reflexivity|]. split; [reflexivity|]. split; [reflexivity|].
  split; [reflexivity|]. split; [discriminate|].
  destruct (@first_prompt_names_chat Hex24.format Scripted.provider
              Demo.empty "u1" Demo.cid Demo.build Demo.hello
              Demo.button [inr Demo.button] Demo.button []
              eq_refl eq_refl eq_refl eq_refl
              ltac:(discriminate))
    as (H0 & H1 & _ & H2 & _).
  split; [exact H0|]. split; [exact H1|]. exact H2.
Defined.

(** C2 as stated fails when the first prompt is itself the text "New Chat":
    the chat is created for a well-formed id, both turns succeed, the name
    after the first turn is the first prompt, and the second prompt renames
    the chat. *)
Lemma second_prompt_renames_counterexample :
  @is_valid Hex24.format Demo.cid = true ∧
  stored_name Demo.created Demo.cid = Some "New Chat" ∧
  p_name <$> value (outcome (post_message_by_chat_id Demo.sentinel Demo.cid)
                      Demo.created)
    = Some (Some (input Demo.sentinel)) ∧
  stored_name Demo.echoed Demo.cid = Some (input Demo.sentinel) ∧
  p_name <$> value (outcome (post_message_by_chat_id Demo.hello Demo.cid)
                      Demo.echoed)
    = Some (Some "hello") ∧
  stored_name Demo.echoed_hello Demo.cid = Some "hello" ∧
  stored_name Demo.echoed_hello Demo.cid ≠ stored_name Demo.echoed Demo.cid.
Proof.
  repeat split; try reflexivity. vm_compute. discriminate.
Qed.


(** * Further properties of the services *)

(** ** Listing, creating, reading *)

Section Collection.

Context `{IdFormat} `{Provider}.

(** What [get_chats_by_user_id] returns, by membership. *)
Lemma list_chats_elem_of (m : gmap oid Document) user_id (r : Record_) :
  r ∈ filter (λ r : Record_, d_userId r.2 = Some user_id) (map_to_list m)
  ↔ m !! r.1 = Some r.2 ∧ d_userId r.2 = Some user_id.
Proof.
  unfold Record_ in *.
  rewrite list_elem_of_filter, elem_of_map_to_list'. tauto.
Qed.

(** X1. Listing a user's chats returns, without repetition, exactly the
    stored records whose userId is that user, and changes nothing in the
    collection. *)
Theorem list_chats_exact (w : World) user_id :
  ∃ l,
    outcome (get_chats_by_user_id user_id) w = inr l ∧
    NoDup l ∧
    (∀ _id d, (_id, d) ∈ l ↔
              chats w !! _id = Some d ∧ d_userId d = Some user_id) ∧
    chats (after (get_chats_by_user_id user_id) w) = chats w.
Proof.
  unfold outcome, after. rewrite get_chats_by_user_id_returns. simpl.
  eexists. split; [done|]. split; [|split; [|done]].
  - apply NoDup_filter, NoDup_map_to_list.
  - intros _id d. apply (list_chats_elem_of (chats w) user_id (_id, d)).
Qed.

(** X2. After create-chat for a user, that user's list is the list from
    before plus the created chat, which was not in it: the created chat is
    listed exactly once. *)
Theorem create_then_list (w : World) user_id (name : option string) :
  ∃ c l l',
    outcome (create_chat_by_user_id user_id name) w = inr c ∧
    outcome (get_chats_by_user_id user_id) w = inr l ∧
    outcome (get_chats_by_user_id user_id)
      (after (create_chat_by_user_id user_id name) w) = inr l' ∧
    l' ≡ₚ (c :: l) ∧ (c ∉ l) ∧ NoDup l'.
Proof.
  destruct (create_chat_run w user_id name) as [Hnew Hrun].
  cbv zeta in Hnew, Hrun. unfold outcome, after.
  rewrite Hrun, !get_chats_by_user_id_returns. simpl.
  do 3 eexists. split; [done|]. split; [done|]. split; [done|].
  split; [|split].
  - rewrite map_to_list_insert by done. by rewrite filter_cons_True.
  - intros [Hin _]%list_chats_elem_of. simpl in Hin. congruence.
  - apply NoDup_filter, NoDup_map_to_list.
Qed.

(** X3. Two chats created one after the other get different ids, and both
    are stored as created: the second creation does not touch the first
    record. *)
Theorem create_twice_distinct (w : World) u1 n1 u2 n2 :
  let w1 := after (create_chat_by_user_id u1 n1) w in
  let w2 := after (create_chat_by_user_id u2 n2) w1 in
  ∃ c1 c2,
    outcome (create_chat_by_user_id u1 n1) w = inr c1 ∧
    outcome (create_chat_by_user_id u2 n2) w1 = inr c2 ∧
    c1.1 ≠ c2.1 ∧
    chats w2 !! c1.1 = Some c1.2 ∧
    chats w2 !! c2.1 = Some c2.2.
Proof.
  intros w1 w2.
  destruct (create_chat_run w u1 n1) as [Hnew1 Hrun1].
  destruct (create_chat_run w1 u2 n2) as [Hnew2 Hrun2].
  cbv zeta in Hnew1, Hrun1, Hnew2, Hrun2.
  assert (chats w1 !! fresh (dom (chats w)) = Some
            (model_dump (new_Chat u1 (default New_Chat n1)))) as Hin1.
  { unfold w1, after. rewrite Hrun1. simpl. by rewrite lookup_insert_eq. }
  assert (fresh (dom (chats w)) ≠ fresh (dom (chats w1))) as Hne.
  { intros Heq. rewrite Heq in Hin1. congruence. }
  exists (fresh (dom (chats w)), model_dump (new_Chat u1 (default New_Chat n1))),
    (fresh (dom (chats w1)), model_dump (new_Chat u2 (default New_Chat n2))).
  unfold outcome, w2, after. rewrite Hrun1, !Hrun2. simpl.
  split; [done|]. split; [done|]. split; [done|].
  split; [|by rewrite lookup_insert_eq].
  rewrite lookup_insert_ne; [by rewrite lookup_insert_eq|].
  intros Heq. apply Hne. symmetry. exact Heq.
Qed.

(** X4. The two reading services never write: for every id, well formed
    or not, and every user, get-chat and list-chats leave the collection
    and the provider as they were and make no writing call. *)
Theorem reads_do_not_write (w : World) chat_id user_id :
  (chats (after (get_chat_by_id chat_id) w) = chats w ∧
   ai_state (after (get_chat_by_id chat_id) w) = ai_state w ∧
   Forall (λ ev, is_write ev = false)
          (since w (after (get_chat_by_id chat_id) w))) ∧
  (chats (after (get_chats_by_user_id user_id) w) = chats w ∧
   ai_state (after (get_chats_by_user_id user_id) w) = ai_state w ∧
   Forall (λ ev, is_write ev = false)
          (since w (after (get_chats_by_user_id user_id) w))).
Proof.
  split.
  - unfold after, get_chat_by_id.
    destruct (is_valid chat_id); simpl.
    + unfold mbind, M_bind, find_one. simpl.
      destruct (chats w !! ObjectId chat_id); simpl;
        (split; [done|]; split; [done|]); unfold since; simpl;
        rewrite drop_app_length; by repeat constructor.
    + rewrite since_refl. by repeat constructor.
  - unfold after. rewrite get_chats_by_user_id_returns. simpl.
    split; [done|]. split; [done|]. unfold since. simpl.
    rewrite drop_app_length. by repeat constructor.
Qed.

End Collection.

(** ** Create, rename, delete and what a later call sees *)

Section Lifecycle.

Context `{IdFormat} `{Provider}.

(** X5. Round trip: get-chat on the id that create-chat has just returned
    gives back the record that was created, with that id, owner and name,
    no message and empty code. *)
Theorem create_then_get (w : World) user_id (name : option string) chat_id :
  is_valid chat_id = true →
  fst <$> value (outcome (create_chat_by_user_id user_id name) w)
    = Some (ObjectId chat_id) →
  outcome (get_chat_by_id chat_id)
    (after (create_chat_by_user_id user_id name) w)
  = inr (detailed_chat
           (ObjectId chat_id,
            {| d_userId := Some user_id;
               d_name := Some (default New_Chat name);
               d_messages := [];
               d_html := Some ""; d_css := Some ""; d_js := Some "" |})).
Proof.
  intros Hv Hid.
  destruct (create_chat_run w user_id name) as [_ Hrun]. cbv zeta in Hrun.
  unfold outcome in Hid. rewrite Hrun in Hid. simpl in Hid.
  injection Hid as Hid.
  unfold outcome, after. rewrite Hrun. simpl.
  erewrite get_present; [done|done|]. simpl.
  rewrite Hid. by rewrite lookup_insert_eq.
Qed.

(** X6. Deleting an existing chat succeeds, removes that record and no
    other, and from then on get, rename and a second delete on the same id
    raise NotFound. *)
Theorem delete_removes_chat (w : World) chat_id d :
  is_valid chat_id = true →
  stored w chat_id = Some d →
  let w' := after (delete_chat_by_id chat_id) w in
  outcome (delete_chat_by_id chat_id) w = inr "Chat deleted successfully." ∧
  stored w' chat_id = None ∧
  (∀ _id, _id ≠ ObjectId chat_id → chats w' !! _id = chats w !! _id) ∧
  fails_with NotFound (get_chat_by_id chat_id) w' ∧
  fails_with NotFound (delete_chat_by_id chat_id) w' ∧
  (∀ name, fails_with NotFound (rename_chat_by_id chat_id name) w').
Proof.
  intros Hv Hd w'. unfold stored in *.
  pose proof (delete_present w chat_id d Hv Hd) as Hrun.
  assert (chats w' = delete (ObjectId chat_id) (chats w)) as Hc.
  { unfold w', after. by rewrite Hrun. }
  assert (chats w' !! ObjectId chat_id = None) as Hgone.
  { rewrite Hc. apply lookup_delete_eq. }
  assert (NotFound (HTTPException 404 "Chat not found")) as Hnf
    by (by eexists).
  split; [unfold outcome; by rewrite Hrun|]. split; [done|].
  split; [intros _id Hne; rewrite Hc; by apply lookup_delete_ne|].
  unfold fails_with, outcome.
  split; [rewrite get_absent by done; eauto|].
  split; [rewrite delete_absent by done; eauto|].
  intros name. rewrite rename_absent by done. eauto.
Qed.

(** X7. Renaming an existing chat succeeds and changes the name of that
    record only: its owner, messages and code fields stay, every other
    record stays, and a get that follows returns the renamed record. *)
Theorem rename_changes_name_only (w : World) chat_id name d :
  is_valid chat_id = true →
  stored w chat_id = Some d →
  let w' := after (rename_chat_by_id chat_id name) w in
  let d' := {| d_userId := d_userId d; d_name := Some name;
               d_messages := d_messages d; d_html := d_html d;
               d_css := d_css d; d_js := d_js d |} in
  outcome (rename_chat_by_id chat_id name) w
    = inr "Chat renamed successfully." ∧
  stored w' chat_id = Some d' ∧
  (∀ _id, _id ≠ ObjectId chat_id → chats w' !! _id = chats w !! _id) ∧
  outcome (get_chat_by_id chat_id) w' = inr (detailed_chat (ObjectId chat_id, d')).
Proof.
  intros Hv Hd w' d'. unfold stored in *.
  pose proof (rename_present w chat_id name d Hv Hd) as Hrun.
  assert (chats w' = <[ObjectId chat_id := d']> (chats w)) as Hc.
  { unfold w', after. by rewrite Hrun. }
  assert (chats w' !! ObjectId chat_id = Some d') as Hd'.
  { rewrite Hc. apply lookup_insert_eq. }
  split; [unfold outcome; by rewrite Hrun|]. split; [done|].
  split; [intros _id Hne; rewrite Hc; by apply lookup_insert_ne|].
  unfold outcome. by rewrite (get_present w' chat_id d' Hv Hd').
Qed.

(** X8. The last rename wins: for every id and every collection, renaming
    to one name and then to another leaves the collection as renaming to
    the second name alone does. *)
Theorem rename_last_wins (w : World) chat_id n1 n2 :
  chats (after (rename_chat_by_id chat_id n2)
           (after (rename_chat_by_id chat_id n1) w))
  = chats (after (rename_chat_by_id chat_id n2) w).
Proof.
  destruct (is_valid chat_id) eqn:Hv.
  - destruct (chats w !! ObjectId chat_id) as [d|] eqn:Hd.
    + pose proof (rename_present w chat_id n1 d Hv Hd) as Hr1.
      pose proof (rename_present w chat_id n2 d Hv Hd) as Hr2.
      set (w1 := after (rename_chat_by_id chat_id n1) w).
      assert (chats w1 = <[ObjectId chat_id :=
                {| d_userId := d_userId d; d_name := Some n1;
                   d_messages := d_messages d; d_html := d_html d;
                   d_css := d_css d; d_js := d_js d |}]> (chats w)) as Hc1.
      { unfold w1, after. by rewrite Hr1. }
      assert (chats w1 !! ObjectId chat_id = Some
                {| d_userId := d_userId d; d_name := Some n1;
                   d_messages := d_messages d; d_html := d_html d;
                   d_css := d_css d; d_js := d_js d |}) as Hd1.
      { rewrite Hc1. apply lookup_insert_eq. }
      unfold after.
      rewrite (rename_present w1 chat_id n2 _ Hv Hd1), Hr2. simpl.
      rewrite Hc1. apply insert_insert_eq.
    + unfold after. rewrite !rename_absent; try done.
      by rewrite rename_absent.
  - unfold after, rename_chat_by_id. by rewrite Hv.
Qed.

(** X9. After a successful delete the chat is in no user's list any more,
    and every other chat is listed as before. *)
Theorem delete_then_list (w : World) chat_id d user_id :
  is_valid chat_id = true →
  stored w chat_id = Some d →
  ∃ l l',
    outcome (get_chats_by_user_id user_id) w = inr l ∧
    outcome (get_chats_by_user_id user_id)
      (after (delete_chat_by_id chat_id) w) = inr l' ∧
    (∀ r, r ∈ l' ↔ r ∈ l ∧ r.1 ≠ ObjectId chat_id).
Proof.
  intros Hv Hd. unfold stored in Hd.
  pose proof (delete_present w chat_id d Hv Hd) as Hrun.
  unfold outcome, after. rewrite Hrun, !get_chats_by_user_id_returns. simpl.
  do 2 eexists. split; [done|]. split; [done|].
  intros r. split.
  - intros Hin. apply list_chats_elem_of in Hin as [Hl Hu].
    destruct (decide (r.1 = ObjectId chat_id)) as [Heq|Hne].
    + by rewrite Heq, lookup_delete_eq in Hl.
    + rewrite lookup_delete_ne in Hl by done.
      split; [|done]. by apply list_chats_elem_of.
  - intros [Hin Hne]. apply list_chats_elem_of in Hin as [Hl Hu].
    apply list_chats_elem_of. by rewrite lookup_delete_ne.
Qed.

End Lifecycle.

(** ** More on posting a message *)

Section PostMore.

Context `{IdFormat} `{Provider}.

(** The four ways a run of post-message can go. *)
Lemma post_message_cases (w : World) prompt chat_id :
  (is_valid chat_id = false ∧
   post_message_by_chat_id prompt chat_id w
   = (inl (HTTPException 400 "Invalid chat ID"), w))
  ∨ (∃ e a,
       is_valid chat_id = true ∧
       get_ai_response (input prompt) chat_id (ai_state w) = (inl e, a) ∧
       post_message_by_chat_id prompt chat_id w
       = (inl e, {| chats := chats w; ai_state := a;
                    trace := trace w ++ [EvAiResponse (input prompt) chat_id] |}))
  ∨ (∃ r a,
       is_valid chat_id = true ∧
       get_ai_response (input prompt) chat_id (ai_state w) = (inr r, a) ∧
       chats w !! ObjectId chat_id = None ∧
       post_message_by_chat_id prompt chat_id w
       = (inl (HTTPException 404 "Chat not found"),
          {| chats := chats w; ai_state := a;
             trace := trace w ++ [EvAiResponse (input prompt) chat_id;
                                  EvFindOne (ObjectId chat_id)] |}))
  ∨ (∃ r a d,
       is_valid chat_id = true ∧
       get_ai_response (input prompt) chat_id (ai_state w) = (inr r, a) ∧
       chats w !! ObjectId chat_id = Some d ∧
       post_message_by_chat_id prompt chat_id w
       = (inr {| p_name := d_name (posted (input prompt) r d);
                 p_message := {| content := explanation r; type := AI |};
                 p_code := {| html := r_html r; css := r_css r;
                              js := r_js r |} |},
          {| chats := <[ObjectId chat_id := posted (input prompt) r d]> (chats w);
             ai_state := a;
             trace := trace w ++ [EvAiResponse (input prompt) chat_id;
                                  EvFindOne (ObjectId chat_id);
                                  EvUpdateOne (ObjectId chat_id) true] |})).
Proof.
  destruct (is_valid chat_id) eqn:Hv.
  - destruct (get_ai_response (input prompt) chat_id (ai_state w))
      as [[e|r] a] eqn:Hr.
    + right. left. exists e, a. eauto using post_message_upstream.
    + destruct (chats w !! ObjectId chat_id) as [d|] eqn:Hd.
      * do 3 right. exists r, a, d. eauto using post_message_present.
      * do 2 right. left. exists r, a. eauto using post_message_absent.
  - left. eauto using post_message_invalid.
Qed.

(** X11. The calls of post-message, in order: nothing for a malformed id;
    otherwise the AI provider first, then, if it answered, the lookup of
    the chat, then, if the chat is there, the single update.  So a post to
    a missing chat costs a provider call, and a write is always the last
    call made. *)
Theorem post_message_call_order (w : World) prompt chat_id :
  since w (after (post_message_by_chat_id prompt chat_id) w)
  = post_calls w prompt chat_id.
Proof.
  unfold after, post_calls.
  destruct (post_message_cases w prompt chat_id)
    as [[Hv ->]|[(e & a & Hv & Hr & ->)|[(r & a & Hv & Hr & Hd & ->)
       |(r & a & d & Hv & Hr & Hd & ->)]]]; rewrite Hv; simpl.
  - apply since_refl.
  - rewrite since_app. by rewrite Hr.
  - rewrite since_app. by rewrite Hr, Hd.
  - rewrite since_app. by rewrite Hr, Hd.
Qed.

(** X12. When the AI provider fails on a well-formed id, post-message
    raises the provider's own exception unchanged; the collection is not
    even read, and the provider call is the only call made. *)
Theorem post_message_upstream_failure (w : World) prompt chat_id e a :
  is_valid chat_id = true →
  get_ai_response (input prompt) chat_id (ai_state w) = (inl e, a) →
  let w' := after (post_message_by_chat_id prompt chat_id) w in
  outcome (post_message_by_chat_id prompt chat_id) w = inl e ∧
  chats w' = chats w ∧
  since w w' = [EvAiResponse (input prompt) chat_id].
Proof.
  intros Hv Hr w'. unfold w', outcome, after.
  rewrite (post_message_upstream w prompt chat_id e a Hv Hr). simpl.
  by rewrite since_app.
Qed.

(** X13. No service but delete removes a record, changes its owner, or
    drops or edits a stored message: after list, create, rename, get or
    post, on any input, every record is still there with the same owner
    and with its former messages at the start of its messages.  Delete
    leaves every record but the one its id names as it was. *)
Theorem services_keep_records (w : World) :
  (∀ user_id, keeps w (after (get_chats_by_user_id user_id) w)) ∧
  (∀ user_id name, keeps w (after (create_chat_by_user_id user_id name) w)) ∧
  (∀ chat_id name, keeps w (after (rename_chat_by_id chat_id name) w)) ∧
  (∀ chat_id, keeps w (after (get_chat_by_id chat_id) w)) ∧
  (∀ prompt chat_id,
     keeps w (after (post_message_by_chat_id prompt chat_id) w)) ∧
  (∀ chat_id _id d,
     chats w !! _id = Some d → _id ≠ ObjectId chat_id →
     chats (after (delete_chat_by_id chat_id) w) !! _id = Some d).
Proof.
  assert (∀ w' : World, chats w' = chats w → keeps w w') as Hsame.
  { intros w' Hc _id d Hd. exists d. by rewrite Hc. }
  repeat split.
  - intros user_id. apply Hsame. unfold after.
    by rewrite get_chats_by_user_id_returns.
  - intros user_id name _id d Hd.
    destruct (create_chat_run w user_id name) as [Hnew Hrun].
    cbv zeta in Hnew, Hrun. unfold after. rewrite Hrun. simpl.
    exists d. rewrite lookup_insert_ne by congruence. done.
  - intros chat_id name. destruct (is_valid chat_id) eqn:Hv.
    + destruct (chats w !! ObjectId chat_id) as [d0|] eqn:Hd0.
      * intros _id d Hd. unfold after.
        rewrite (rename_present w chat_id name d0 Hv Hd0). simpl.
        destruct (decide (ObjectId chat_id = _id)) as [<-|Hne].
        -- rewrite lookup_insert_eq. eexists. split; [done|].
           simpl. by simplify_eq.
        -- rewrite lookup_insert_ne by done. eauto.
      * apply Hsame. unfold after. by rewrite rename_absent.
    + apply Hsame. unfold after, rename_chat_by_id. by rewrite Hv.
  - intros chat_id. apply Hsame. unfold after, get_chat_by_id.
    destruct (is_valid chat_id); [|done]. simpl.
    unfold mbind, M_bind, find_one. simpl.
    by destruct (chats w !! ObjectId chat_id).
  - intros prompt chat_id. unfold after.
    destruct (post_message_cases w prompt chat_id)
      as [[_ ->]|[(e & a & _ & _ & ->)|[(r & a & _ & _ & _ & ->)
         |(r & a & d0 & _ & _ & Hd0 & ->)]]]; try by apply Hsame.
    intros _id d Hd. simpl.
    destruct (decide (ObjectId chat_id = _id)) as [<-|Hne].
    + rewrite lookup_insert_eq. eexists. split; [done|].
      simplify_eq. simpl. split; [done|]. by apply prefix_app_r.
    + rewrite lookup_insert_ne by done. eauto.
  - intros chat_id _id d Hd Hne. unfold after, delete_chat_by_id.
    destruct (is_valid chat_id); [|done]. simpl.
    unfold mbind, M_bind, delete_one.
    destruct (chats w !! ObjectId chat_id); simpl; [|done].
    by rewrite lookup_delete_ne.
Qed.

(** X14. A get that follows a successful post returns the record the post
    wrote: its name is the name the post returned, its messages end with
    the turn, and every code field that came non-blank from the provider
    reads as the post echoed it. *)
Theorem post_then_get (w : World) prompt chat_id r a d :
  is_valid chat_id = true →
  get_ai_response (input prompt) chat_id (ai_state w) = (inr r, a) →
  stored w chat_id = Some d →
  ∃ x d',
    outcome (post_message_by_chat_id prompt chat_id) w = inr x ∧
    outcome (get_chat_by_id chat_id)
      (after (post_message_by_chat_id prompt chat_id) w)
    = inr (detailed_chat (ObjectId chat_id, d')) ∧
    d_name d' = p_name x ∧
    d_messages d' = (d_messages d ++ turn (input prompt) r)%list ∧
    (Py.strip (html (p_code x)) ≠ "" → d_html d' = Some (html (p_code x))) ∧
    (Py.strip (css (p_code x)) ≠ "" → d_css d' = Some (css (p_code x))) ∧
    (Py.strip (js (p_code x)) ≠ "" → d_js d' = Some (js (p_code x))).
Proof.
  intros Hv Hr Hd. unfold stored in Hd.
  pose proof (post_message_present w prompt chat_id r a d Hv Hr Hd) as Hrun.
  set (w' := after (post_message_by_chat_id prompt chat_id) w).
  assert (chats w' !! ObjectId chat_id = Some (posted (input prompt) r d))
    as Hd'.
  { unfold w', after. rewrite Hrun. simpl. apply lookup_insert_eq. }
  do 2 eexists. unfold outcome at 1. rewrite Hrun. simpl.
  split; [done|]. unfold outcome.
  rewrite (get_present w' chat_id _ Hv Hd'). simpl.
  split; [done|]. split; [done|]. split; [done|].
  repeat split; intros Hs; simpl;
    match goal with
    | |- (if Py.blank ?v then _ else _) = _ =>
        destruct (Py.blank v) eqn:Hb; [|done];
        by apply strip_empty_iff in Hb
    end.
Qed.

End PostMore.


(** ** Several turns in a row *)

Section Turns.

Context `{IdFormat} `{Provider}.

(** Each turn that the provider answers is stored before the next starts. *)
Lemma post_all_run (turns : list (Prompt * AiResponse)) :
  ∀ (w : World) chat_id d,
    is_valid chat_id = true →
    chats w !! ObjectId chat_id = Some d →
    answers chat_id (ai_state w) turns →
    ∃ xs,
      outcome (post_all (fst <$> turns) chat_id) w = inr xs ∧
      length xs = length turns ∧
      chats (after (post_all (fst <$> turns) chat_id) w) !! ObjectId chat_id
      = Some (posted_all turns d).
Proof.
  induction turns as [|[prompt r] turns IH]; intros w chat_id d Hv Hd Hans.
  - exists []. by repeat split.
  - destruct Hans as (a & Hr & Hans).
    pose proof (post_message_present w prompt chat_id r a d Hv Hr Hd) as Hrun.
    set (w1 := {| chats := <[ObjectId chat_id := posted (input prompt) r d]>
                             (chats w);
                  ai_state := a;
                  trace := trace w ++ [EvAiResponse (input prompt) chat_id;
                                       EvFindOne (ObjectId chat_id);
                                       EvUpdateOne (ObjectId chat_id) true] |})
      in Hrun.
    destruct (IH w1 chat_id (posted (input prompt) r d) Hv)
      as (xs & Hout & Hlen & Hst); [apply lookup_insert_eq|exact Hans|].
    unfold outcome, after in *.
    change (fst <$> (prompt, r) :: turns) with (prompt :: (fst <$> turns)).
    cbn [post_all]. unfold mbind, M_bind. rewrite Hrun.
    destruct (post_all (fst <$> turns) chat_id w1) as [[e|xs'] w2] eqn:Hall;
      [done|].
    injection Hout as ->. eexists. split; [done|].
    split; [simpl; by rewrite Hlen|]. exact Hst.
Qed.

Lemma latest_cons (old : option string) (v : string) (vs : list string) :
  latest old (v :: vs) = latest (if Py.blank v then old else Some v) vs.
Proof.
  unfold latest. destruct (Py.blank v) eqn:Hb.
  - rewrite filter_cons_False; [done|].
    intros Hs. by apply strip_empty_iff in Hb.
  - rewrite filter_cons_True.
    + rewrite last_cons. by destruct (last _).
    + intros Hs%strip_empty_iff. congruence.
Qed.

Lemma posted_all_code (turns : list (Prompt * AiResponse)) (d : Document) :
  d_html (posted_all turns d) = latest (d_html d) ((r_html ∘ snd) <$> turns) ∧
  d_css (posted_all turns d) = latest (d_css d) ((r_css ∘ snd) <$> turns) ∧
  d_js (posted_all turns d) = latest (d_js d) ((r_js ∘ snd) <$> turns).
Proof.
  revert d. induction turns as [|[prompt r] turns IH]; intros d; [done|].
  unfold posted_all. simpl. rewrite !latest_cons.
  destruct (IH (posted (input prompt) r d)) as (Hh & Hc & Hj).
  unfold posted_all in Hh, Hc, Hj. by rewrite Hh, Hc, Hj.
Qed.

Lemma posted_all_messages (turns : list (Prompt * AiResponse)) (d : Document) :
  d_messages (posted_all turns d)
  = (d_messages d ++ (turns ≫= λ t, turn (input t.1) t.2))%list.
Proof.
  revert d. induction turns as [|[prompt r] turns IH]; intros d.
  - simpl. by rewrite app_nil_r.
  - unfold posted_all in *. simpl. rewrite IH. simpl.
    by rewrite <- app_assoc.
Qed.

Lemma posted_all_name (turns : list (Prompt * AiResponse)) (d : Document) :
  d_name (posted_all turns d)
  = if bool_decide (d_name d = Some New_Chat)
    then Some (default New_Chat
                 (head (filter (λ p, p ≠ New_Chat)
                               ((input ∘ fst) <$> turns))))
    else d_name d.
Proof.
  revert d. induction turns as [|[prompt r] turns IH]; intros d.
  - simpl. by case_bool_decide.
  - unfold posted_all in *. simpl. rewrite IH. simpl.
    destruct (bool_decide (d_name d = Some New_Chat)) eqn:Hn.
    + destruct (decide (input prompt = New_Chat)) as [Hp|Hp].
      * rewrite filter_cons_False by (by intros ?). rewrite Hp.
        by rewrite bool_decide_eq_true_2.
      * rewrite filter_cons_True by done. simpl.
        rewrite bool_decide_eq_false_2; [done|]. congruence.
    + by rewrite Hn.
Qed.

(** X15. Over any number of turns posted to a chat, each stored code field
    ends as the last value the provider sent for it that is not blank once
    stripped, and as it was before if every value sent was blank. *)
Theorem code_holds_latest_nonblank
    (w : World) chat_id d (turns : list (Prompt * AiResponse)) :
  is_valid chat_id = true →
  stored w chat_id = Some d →
  answers chat_id (ai_state w) turns →
  ∃ d',
    stored (after (post_all (fst <$> turns) chat_id) w) chat_id = Some d' ∧
    d_html d' = latest (d_html d) ((r_html ∘ snd) <$> turns) ∧
    d_css d' = latest (d_css d) ((r_css ∘ snd) <$> turns) ∧
    d_js d' = latest (d_js d) ((r_js ∘ snd) <$> turns).
Proof.
  intros Hv Hd Hans.
  destruct (post_all_run turns w chat_id d Hv Hd Hans) as (xs & _ & _ & Hst).
  exists (posted_all turns d). split; [exact Hst|]. apply posted_all_code.
Qed.

(** X16. Over any number of turns every post returns, and the stored
    messages end as the former ones followed by the turns in the order
    posted, each a USER message then an AI message: two messages more per
    turn, none lost or reordered. *)
Theorem messages_hold_all_turns
    (w : World) chat_id d (turns : list (Prompt * AiResponse)) :
  is_valid chat_id = true →
  stored w chat_id = Some d →
  answers chat_id (ai_state w) turns →
  ∃ xs d',
    outcome (post_all (fst <$> turns) chat_id) w = inr xs ∧
    length xs = length turns ∧
    stored (after (post_all (fst <$> turns) chat_id) w) chat_id = Some d' ∧
    d_messages d'
    = (d_messages d ++ (turns ≫= λ t, turn (input t.1) t.2))%list ∧
    length (d_messages d') = length (d_messages d) + 2 * length turns.
Proof.
  intros Hv Hd Hans.
  destruct (post_all_run turns w chat_id d Hv Hd Hans)
    as (xs & Hout & Hlen & Hst).
  exists xs, (posted_all turns d).
  split; [done|]. split; [done|]. split; [exact Hst|].
  rewrite posted_all_messages. split; [done|].
  rewrite length_app. f_equal.
  clear. induction turns as [|[p r] turns IH]; [done|].
  rewrite bind_cons, length_app, IH. simpl. lia.
Qed.

(** X17. Over any number of turns, a chat whose stored name is not "New
    Chat" keeps its name, and a chat named "New Chat" ends named after the
    first prompt posted whose text is not "New Chat" (and stays "New Chat"
    if there is none). *)
Theorem name_after_turns
    (w : World) chat_id d (turns : list (Prompt * AiResponse)) :
  is_valid chat_id = true →
  stored w chat_id = Some d →
  answers chat_id (ai_state w) turns →
  stored_name (after (post_all (fst <$> turns) chat_id) w) chat_id
  = if bool_decide (d_name d = Some New_Chat)
    then Some (default New_Chat
                 (head (filter (λ p, p ≠ New_Chat)
                               ((input ∘ fst) <$> turns))))
    else d_name d.
Proof.
  intros Hv Hd Hans.
  destruct (post_all_run turns w chat_id d Hv Hd Hans) as (xs & _ & _ & Hst).
  unfold stored_name, stored. rewrite Hst. simpl. apply posted_all_name.
Qed.

End Turns.

(** ** The further properties on the test data *)

Lemma create_then_get_witness :
  @is_valid Hex24.format Demo.cid = true ∧
  fst <$> value (outcome (create_chat_by_user_id "u1" None) Demo.empty)
    = Some (@ObjectId Hex24.format Demo.cid) ∧
  outcome (get_chat_by_id Demo.cid) Demo.created
  = inr (0%N, {| d_userId := Some "u1"; d_name := Some "New Chat";
                 d_messages := [];
                 d_html := Some ""; d_css := Some ""; d_js := Some "" |}).
Proof.
  split; [reflexivity|]. split; [reflexivity|].
  exact (@create_then_get Hex24.format Scripted.provider
           Demo.empty "u1" None Demo.cid eq_refl eq_refl).
Defined.

Lemma delete_removes_chat_witness :
  @is_valid Hex24.format Demo.cid = true ∧
  stored Demo.one Demo.cid = Some Demo.styled ∧
  outcome (delete_chat_by_id Demo.cid) Demo.one
    = inr "Chat deleted successfully." ∧
  stored (after (delete_chat_by_id Demo.cid) Demo.one) Demo.cid = None ∧
  fails_with NotFound (get_chat_by_id Demo.cid)
    (after (delete_chat_by_id Demo.cid) Demo.one).
Proof.
  split; [reflexivity|]. split; [reflexivity|].
  destruct (@delete_removes_chat Hex24.format Scripted.provider
              Demo.one Demo.cid Demo.styled eq_refl eq_refl)
    as (Hout & Hgone & _ & Hget & _).
  split; [exact Hout|]. split; [exact Hgone|]. exact Hget.
Defined.

Lemma rename_changes_name_only_witness :
  @is_valid Hex24.format Demo.cid = true ∧
  stored Demo.one Demo.cid = Some Demo.styled ∧
  stored (after (rename_chat_by_id Demo.cid "Landing") Demo.one) Demo.cid
  = Some {| d_userId := Some "u1"; d_name := Some "Landing";
            d_messages := d_messages Demo.styled;
            d_html := Some "<p>"; d_css := Some "p{color:blue}";
            d_js := Some "" |}.
Proof.
  split; [reflexivity|]. split; [reflexivity|].
  destruct (@rename_changes_name_only Hex24.format Scripted.provider
              Demo.one Demo.cid "Landing" Demo.styled eq_refl eq_refl)
    as (_ & Hst & _).
  exact Hst.
Defined.

Lemma delete_then_list_witness :
  @is_valid Hex24.format Demo.cid = true ∧
  stored Cases.two Demo.cid = Some Demo.styled ∧
  ∃ l l',
    outcome (get_chats_by_user_id "u1") Cases.two = inr l ∧
    outcome (get_chats_by_user_id "u1")
      (after (delete_chat_by_id Demo.cid) Cases.two) = inr l' ∧
    (∀ r, r ∈ l' ↔ r ∈ l ∧ r.1 ≠ @ObjectId Hex24.format Demo.cid).
Proof.
  split; [reflexivity|]. split; [reflexivity|].
  exact (@delete_then_list Hex24.format Scripted.provider
           Cases.two Demo.cid Demo.styled "u1" eq_refl eq_refl).
Defined.

Lemma post_message_upstream_failure_witness :
  @is_valid Hex24.format Demo.cid = true ∧
  Scripted.respond (input Demo.build) Demo.cid (ai_state Cases.down)
    = (inl (UpstreamFailure "quota exceeded"), []) ∧
  outcome (post_message_by_chat_id Demo.build Demo.cid) Cases.down
    = inl (UpstreamFailure "quota exceeded") ∧
  chats (after (post_message_by_chat_id Demo.build Demo.cid) Cases.down)
    = chats Cases.down ∧
  since Cases.down (after (post_message_by_chat_id Demo.build Demo.cid)
                      Cases.down)
    = [EvAiResponse "build a button" Demo.cid].
Proof.
  split; [reflexivity|]. split; [reflexivity|].
  exact (@post_message_upstream_failure Hex24.format Scripted.provider
           Cases.down Demo.build Demo.cid
           (UpstreamFailure "quota exceeded") [] eq_refl eq_refl).
Defined.

Lemma post_then_get_witness :
  @is_valid Hex24.format Demo.cid = true ∧
  Scripted.respond (input Demo.build) Demo.cid (ai_state Demo.one)
    = (inr Demo.button, [inr Demo.button]) ∧
  stored Demo.one Demo.cid = Some Demo.styled ∧
  ∃ x d',
    outcome (post_message_by_chat_id Demo.build Demo.cid) Demo.one = inr x ∧
    outcome (get_chat_by_id Demo.cid)
      (after (post_message_by_chat_id Demo.build Demo.cid) Demo.one)
    = inr (0%N, d') ∧
    d_name d' = p_name x.
Proof.
  split; [reflexivity|]. split; [reflexivity|]. split; [reflexivity|].
  destruct (@post_then_get Hex24.format Scripted.provider
              Demo.one Demo.build Demo.cid Demo.button [inr Demo.button]
              Demo.styled eq_refl eq_refl eq_refl)
    as (x & d' & Hout & Hget & Hname & _).
  exists x, d'. split; [exact Hout|]. split; [exact Hget|]. exact Hname.
Defined.

Lemma answers_three :
  @answers Scripted.provider Demo.cid (ai_state Cases.three)
    Cases.turns.
Proof. repeat (eexists; split; [reflexivity|]). exact I. Defined.

Lemma code_holds_latest_nonblank_witness :
  @is_valid Hex24.format Demo.cid = true ∧
  stored Cases.three Demo.cid = Some Demo.styled ∧
  @answers Scripted.provider Demo.cid (ai_state Cases.three)
    Cases.turns ∧
  ∃ d',
    stored (after (post_all (fst <$> Cases.turns) Demo.cid) Cases.three)
      Demo.cid = Some d' ∧
    d_html d' = Some "<h1>" ∧
    d_css d' = Some "h1{}" ∧
    d_js d' = Some "".
Proof.
  split; [reflexivity|]. split; [reflexivity|]. split; [exact answers_three|].
  destruct (@code_holds_latest_nonblank Hex24.format Scripted.provider
              Cases.three Demo.cid Demo.styled Cases.turns
              eq_refl eq_refl answers_three)
    as (d' & Hst & Hh & Hc & Hj).
  exists d'. split; [exact Hst|]. split; [exact Hh|]. split; [exact Hc|].
  exact Hj.
Defined.

Lemma messages_hold_all_turns_witness :
  @is_valid Hex24.format Demo.cid = true ∧
  stored Cases.three Demo.cid = Some Demo.styled ∧
  @answers Scripted.provider Demo.cid (ai_state Cases.three)
    Cases.turns ∧
  ∃ xs d',
    outcome (post_all (fst <$> Cases.turns) Demo.cid) Cases.three = inr xs ∧
    length xs = 3 ∧
    stored (after (post_all (fst <$> Cases.turns) Demo.cid) Cases.three)
      Demo.cid = Some d' ∧
    length (d_messages d') = 8.
Proof.
  split; [reflexivity|]. split; [reflexivity|]. split; [exact answers_three|].
  destruct (@messages_hold_all_turns Hex24.format Scripted.provider
              Cases.three Demo.cid Demo.styled Cases.turns
              eq_refl eq_refl answers_three)
    as (xs & d' & Hout & Hlen & Hst & _ & Hmsgs).
  exists xs, d'. split; [exact Hout|]. split; [exact Hlen|].
  split; [exact Hst|]. exact Hmsgs.
Defined.

Lemma name_after_turns_witness :
  @is_valid Hex24.format Demo.cid = true ∧
  stored Cases.fresh_three Demo.cid = Some Cases.other ∧
  @answers Scripted.provider Demo.cid
    (ai_state Cases.fresh_three) Cases.turns ∧
  stored_name (after (post_all (fst <$> Cases.turns) Demo.cid)
                 Cases.fresh_three) Demo.cid
  = Some "a page".
Proof.
  split; [reflexivity|]. split; [reflexivity|]. split; [exact answers_three|].
  exact (@name_after_turns Hex24.format Scripted.provider
           Cases.fresh_three Demo.cid Cases.other Cases.turns
           eq_refl eq_refl answers_three).
Defined.

(** ** Edge cases of rename, post and create *)

Section Edges.

Context `{IdFormat} `{Provider}.

(** X18. Renaming a chat to the name it already has still succeeds (the
    test is on the records matched, not on those modified) and leaves the
    collection exactly as it was. *)
Theorem rename_to_same_name (w : World) chat_id name d :
  is_valid chat_id = true →
  stored w chat_id = Some d →
  d_name d = Some name →
  outcome (rename_chat_by_id chat_id name) w
    = inr "Chat renamed successfully." ∧
  chats (after (rename_chat_by_id chat_id name) w) = chats w.
Proof.
  intros Hv Hd Hn. unfold stored in Hd. unfold outcome, after.
  rewrite (rename_present w chat_id name d Hv Hd). simpl.
  split; [done|]. apply insert_id. rewrite Hd, <- Hn. by destruct d.
Qed.

(** X19. A turn whose three code values are all blank, posted to a chat
    that is not named "New Chat", still succeeds and returns the stored
    name, and the stored record changes by the two appended messages
    only. *)
Theorem post_message_blank_turn (w : World) prompt chat_id r a d :
  is_valid chat_id = true →
  get_ai_response (input prompt) chat_id (ai_state w) = (inr r, a) →
  stored w chat_id = Some d →
  Py.strip (r_html r) = "" → Py.strip (r_css r) = "" →
  Py.strip (r_js r) = "" →
  d_name d ≠ Some New_Chat →
  (p_name <$> value (outcome (post_message_by_chat_id prompt chat_id) w))
    = Some (d_name d) ∧
  stored (after (post_message_by_chat_id prompt chat_id) w) chat_id
  = Some {| d_userId := d_userId d; d_name := d_name d;
            d_messages := d_messages d ++ turn (input prompt) r;
            d_html := d_html d; d_css := d_css d; d_js := d_js d |}.
Proof.
  intros Hv Hr Hd Hh%strip_empty_iff Hc%strip_empty_iff Hj%strip_empty_iff Hn.
  unfold stored in *. unfold outcome, after.
  rewrite (post_message_present w prompt chat_id r a d Hv Hr Hd). simpl.
  rewrite lookup_insert_eq. unfold posted. rewrite Hh, Hc, Hj.
  by rewrite bool_decide_eq_false_2.
Qed.

(** X20. Creating a chat for one user does not change what another user
    is listed: the other user's list holds the same records as before. *)
Theorem create_leaves_other_users (w : World) user_id name other_id :
  other_id ≠ user_id →
  ∃ l l',
    outcome (get_chats_by_user_id other_id) w = inr l ∧
    outcome (get_chats_by_user_id other_id)
      (after (create_chat_by_user_id user_id name) w) = inr l' ∧
    l' ≡ₚ l.
Proof.
  intros Hne.
  destruct (create_chat_run w user_id name) as [Hnew Hrun].
  cbv zeta in Hnew, Hrun. unfold outcome, after.
  rewrite Hrun, !get_chats_by_user_id_returns. simpl.
  do 2 eexists. split; [done|]. split; [done|].
  rewrite map_to_list_insert by done.
  rewrite filter_cons_False; [done|]. simpl. congruence.
Qed.

End Edges.

Lemma rename_to_same_name_witness :
  @is_valid Hex24.format Demo.cid = true ∧
  stored Demo.one Demo.cid = Some Demo.styled ∧
  d_name Demo.styled = Some "My page" ∧
  outcome (rename_chat_by_id Demo.cid "My page") Demo.one
    = inr "Chat renamed successfully." ∧
  chats (after (rename_chat_by_id Demo.cid "My page") Demo.one)
    = chats Demo.one.
Proof.
  split; [reflexivity|]. split; [reflexivity|]. split; [reflexivity|].
  exact (@rename_to_same_name Hex24.format Scripted.provider
           Demo.one Demo.cid "My page" Demo.styled eq_refl eq_refl eq_refl).
Defined.

Lemma post_message_blank_turn_witness :
  @is_valid Hex24.format Demo.cid = true ∧
  Scripted.respond "thanks" Demo.cid (ai_state Cases.chatty)
    = (inr Cases.talk, []) ∧
  stored Cases.chatty Demo.cid = Some Demo.styled ∧
  Py.strip (r_html Cases.talk) = "" ∧
  Py.strip (r_css Cases.talk) = "" ∧
  Py.strip (r_js Cases.talk) = "" ∧
  d_name Demo.styled ≠ Some New_Chat ∧
  stored (after (post_message_by_chat_id {| input := "thanks" |} Demo.cid)
            Cases.chatty) Demo.cid
  = Some {| d_userId := Some "u1"; d_name := Some "My page";
            d_messages := [ {| content := "make it blue"; type := USER |};
                            {| content := "Done"; type := AI |};
                            {| content := "thanks"; type := USER |};
                            {| content := "Sure"; type := AI |} ];
            d_html := Some "<p>"; d_css := Some "p{color:blue}";
            d_js := Some "" |}.
Proof.
  split; [reflexivity|]. split; [reflexivity|]. split; [reflexivity|].
  split; [reflexivity|]. split; [reflexivity|]. split; [reflexivity|].
  split; [discriminate|].
  destruct (@post_message_blank_turn Hex24.format Scripted.provider
              Cases.chatty {| input := "thanks" |} Demo.cid Cases.talk []
              Demo.styled eq_refl eq_refl eq_refl eq_refl eq_refl eq_refl
              ltac:(discriminate))
    as [_ Hst].
  exact Hst.
Defined.

Lemma create_leaves_other_users_witness :
  "u2" ≠ "u1" ∧
  ∃ l l',
    outcome (get_chats_by_user_id "u2") Cases.two = inr l ∧
    outcome (get_chats_by_user_id "u2")
      (after (create_chat_by_user_id "u1" None) Cases.two) = inr l' ∧
    l' ≡ₚ l.
Proof.
  split; [discriminate|].
  exact (@create_leaves_other_users Hex24.format Scripted.provider
           Cases.two "u1" None "u2" ltac:(discriminate)).
Defined.

(** ** Other clients between the lookup and the update *)

Section SharedStore.

Context `{IdFormat} `{Provider}.

(** With nobody else at work the interleaved run is the plain one. *)
Lemma post_message_interleaved_alone (w : World) prompt chat_id :
  post_message_interleaved (λ w, w) prompt chat_id w
  = post_message_by_chat_id prompt chat_id w.
Proof.
  unfold post_message_interleaved, post_message_by_chat_id.
  destruct (is_valid chat_id); simpl; [|done].
  unfold mbind, M_bind.
  destruct (await_ai_response (input prompt) chat_id w) as [[e|r] w1];
    [done|].
  destruct (find_one (ObjectId chat_id) w1) as [[e|[chat|]] w2]; done.
Qed.

Lemma looked_up_run (w : World) prompt chat_id r a :
  get_ai_response (input prompt) chat_id (ai_state w) = (inr r, a) →
  looked_up prompt chat_id w =
  (inr ((λ d, (ObjectId chat_id, d)) <$> chats w !! ObjectId chat_id),
   {| chats := chats w; ai_state := a;
      trace := trace w ++ [EvAiResponse (input prompt) chat_id;
                           EvFindOne (ObjectId chat_id)] |}).
Proof.
  intros Hr. unfold looked_up, mbind, M_bind, await_ai_response.
  rewrite Hr. simpl. unfold find_one, log. simpl. by rewrite <- app_assoc.
Qed.

(** The run when the lookup has found the chat: the update meets whatever
    record the others have left under the id, or none. *)
Lemma post_message_interleaved_run (others : World → World) (w : World)
    prompt chat_id r a d :
  is_valid chat_id = true →
  get_ai_response (input prompt) chat_id (ai_state w) = (inr r, a) →
  chats w !! ObjectId chat_id = Some d →
  let w2 := others (after (looked_up prompt chat_id) w) in
  post_message_interleaved others prompt chat_id w =
  match chats w2 !! ObjectId chat_id with
  | Some d2 =>
      (inr {| p_name := d_name (posted (input prompt) r d);
              p_message := {| content := explanation r; type := AI |};
              p_code := {| html := r_html r; css := r_css r;
                           js := r_js r |} |},
       {| chats := <[ObjectId chat_id := posted_on (input prompt) r d d2]>
                     (chats w2);
          ai_state := ai_state w2;
          trace := trace w2 ++ [EvUpdateOne (ObjectId chat_id) true] |})
  | None =>
      (inl (HTTPException 404 "Chat not found"),
       {| chats := <[ObjectId chat_id :=
                       posted_on (input prompt) r d empty_document]>
                     (chats w2);
          ai_state := ai_state w2;
          trace := trace w2 ++ [EvUpdateOne (ObjectId chat_id) true] |})
  end.
Proof.
  intros Hv Hr Hd w2. unfold w2, after. rewrite (looked_up_run _ _ _ _ _ Hr).
  simpl. clear w2.
  unfold post_message_interleaved. rewrite Hv. simpl.
  unfold mbind, M_bind, await_ai_response. rewrite Hr. simpl.
  unfold find_one. simpl. rewrite Hd. simpl.
  unfold meanwhile, log. simpl. rewrite <- app_assoc. simpl.
  match goal with
  | |- context [ others ?w1 ] => generalize (others w1)
  end.
  intros w2. unfold update_one.
  assert (∀ d2, apply_update
            {| push_each := [ {| content := input prompt; type := USER |};
                              {| content := explanation r; type := AI |} ];
               set_ :=
                 let s4 :=
                   set_if (bool_decide (d_name d = Some "New Chat")) "name"
                     (input prompt)
                     (set_if (Py.truthy (Py.strip (r_js r))) "code.js"
                        (r_js r)
                        (set_if (Py.truthy (Py.strip (r_css r))) "code.css"
                           (r_css r)
                           (set_if (Py.truthy (Py.strip (r_html r)))
                              "code.html" (r_html r) ∅))) in
                 if bool_decide (s4 = ∅) then None else Some s4 |} d2
          = posted_on (input prompt) r d d2) as Happ.
  { intros d2. unfold apply_update, posted_on, turn, set_field, New_Chat.
    simpl. rewrite default_removed_set, !lookup_set_if, !lookup_empty.
    rewrite !truthy_strip. simpl. rewrite !andb_false_r. simpl.
    rewrite !andb_true_r.
    destruct (bool_decide (d_name d = Some "New Chat")),
      (Py.blank (r_html r)), (Py.blank (r_css r)), (Py.blank (r_js r));
      reflexivity. }
  simpl in Happ.
  destruct (chats w2 !! ObjectId chat_id) as [d2|]; simpl.
  - unfold mret, M_ret, log, with_chats. simpl. rewrite Happ.
    rewrite default_removed_set. unfold set_field, posted, New_Chat.
    rewrite !lookup_set_if, !lookup_empty. simpl.
    rewrite !andb_false_r, !andb_true_r. simpl.
    by destruct (bool_decide (d_name d = Some "New Chat")).
  - unfold raise, log, with_chats. simpl. by rewrite Happ.
Qed.

(** C6, as the code behaves.  When another client deletes the chat
    between the lookup and the update of a post, the update, being an
    upsert, writes a new record under the id (no owner, the two messages
    of the turn, the fields the update sets), and the post then raises
    NotFound: it fails after it has written. *)
Theorem post_message_writes_then_not_found (w : World) prompt chat_id r a d :
  is_valid chat_id = true →
  get_ai_response (input prompt) chat_id (ai_state w) = (inr r, a) →
  stored w chat_id = Some d →
  let others := after (delete_chat_by_id chat_id) in
  let w2 := others (after (looked_up prompt chat_id) w) in
  let w' := after (post_message_interleaved others prompt chat_id) w in
  stored w2 chat_id = None ∧
  outcome (post_message_interleaved others prompt chat_id) w
    = inl (HTTPException 404 "Chat not found") ∧
  stored w' chat_id = Some (posted_on (input prompt) r d empty_document) ∧
  d_userId (posted_on (input prompt) r d empty_document) = None ∧
  d_messages (posted_on (input prompt) r d empty_document)
    = turn (input prompt) r ∧
  last (trace w') = Some (EvUpdateOne (ObjectId chat_id) true).
Proof.
  intros Hv Hr Hd others w2 w'. unfold stored in *.
  pose proof (post_message_interleaved_run others w prompt chat_id r a d
                Hv Hr Hd) as Hrun.
  cbv zeta in Hrun. fold w2 in Hrun.
  assert (chats w2 !! ObjectId chat_id = None) as Hgone.
  { unfold w2, others, after. rewrite (looked_up_run _ _ _ _ _ Hr).
    simpl. erewrite delete_present; [| exact Hv | exact Hd].
    simpl. apply lookup_delete_eq. }
  rewrite Hgone in Hrun.
  split; [exact Hgone|]. unfold w', outcome, after. rewrite Hrun. simpl.
  split; [done|]. split; [apply lookup_insert_eq|].
  split; [done|]. split; [done|]. apply last_snoc.
Qed.

(** X10. Whatever other clients do to the collection between the lookup
    and the update of a post that has found its chat, the post's own write
    touches the record its id names and no other: every other record is
    as the others left it.  The post returns exactly when a record is
    still there at update time; when none is, the upsert adds one under
    the id and the post raises NotFound. *)
Theorem post_message_writes_one_record (others : World → World) (w : World)
    prompt chat_id r a d :
  is_valid chat_id = true →
  get_ai_response (input prompt) chat_id (ai_state w) = (inr r, a) →
  stored w chat_id = Some d →
  let w2 := others (after (looked_up prompt chat_id) w) in
  let w' := after (post_message_interleaved others prompt chat_id) w in
  (∀ _id, _id ≠ ObjectId chat_id → chats w' !! _id = chats w2 !! _id) ∧
  dom (chats w') = {[ObjectId chat_id]} ∪ dom (chats w2) ∧
  (is_Some (stored w2 chat_id) ↔
   ∃ x, outcome (post_message_interleaved others prompt chat_id) w = inr x) ∧
  (stored w2 chat_id = None →
   outcome (post_message_interleaved others prompt chat_id) w
     = inl (HTTPException 404 "Chat not found") ∧
   stored w' chat_id = Some (posted_on (input prompt) r d empty_document)).
Proof.
  intros Hv Hr Hd w2 w'. unfold stored in *.
  pose proof (post_message_interleaved_run others w prompt chat_id r a d
                Hv Hr Hd) as Hrun.
  cbv zeta in Hrun. fold w2 in Hrun.
  unfold w', outcome, after. rewrite Hrun.
  destruct (chats w2 !! ObjectId chat_id) as [d2|] eqn:Hd2; simpl.
  - split; [intros _id Hne; by apply lookup_insert_ne|].
    split; [apply dom_insert_L|]. split; [|done].
    split; [eauto|]. intros _. eauto.
  - split; [intros _id Hne; by apply lookup_insert_ne|].
    split; [apply dom_insert_L|]. split.
    + split; [by intros [? [=]]|by intros [? [=]]].
    + intros _. split; [done|]. apply lookup_insert_eq.
Qed.

End SharedStore.

Lemma post_message_writes_then_not_found_witness :
  @is_valid Hex24.format Demo.cid = true ∧
  Scripted.respond (input Demo.build) Demo.cid (ai_state Demo.one)
    = (inr Demo.button, [inr Demo.button]) ∧
  stored Demo.one Demo.cid = Some Demo.styled ∧
  outcome (post_message_interleaved (after (delete_chat_by_id Demo.cid))
             Demo.build Demo.cid) Demo.one
    = inl (HTTPException 404 "Chat not found") ∧
  stored (after (post_message_interleaved (after (delete_chat_by_id Demo.cid))
                   Demo.build Demo.cid) Demo.one) Demo.cid
    = Some {| d_userId := None; d_name := None;
              d_messages := [ {| content := "build a button"; type := USER |};
                              {| content := "Here"; type := AI |} ];
              d_html := Some "<button>"; d_css := None; d_js := None |}.
Proof.
  split; [reflexivity|]. split; [reflexivity|]. split; [reflexivity|].
  destruct (@post_message_writes_then_not_found Hex24.format Scripted.provider
              Demo.one Demo.build Demo.cid Demo.button [inr Demo.button]
              Demo.styled eq_refl eq_refl eq_refl)
    as (_ & Hout & Hst & _).
  split; [exact Hout|exact Hst].
Defined.

Lemma post_message_writes_one_record_witness :
  @is_valid Hex24.format Demo.cid = true ∧
  Scripted.respond (input Demo.build) Demo.cid (ai_state Cases.two)
    = (inr Demo.button, []) ∧
  stored Cases.two Demo.cid = Some Demo.styled ∧
  chats (after (post_message_interleaved
                  (after (delete_chat_by_id Cases.cid1))
                  Demo.build Demo.cid) Cases.two) !! 1%N
  = None ∧
  ∃ x, outcome (post_message_interleaved
                  (after (delete_chat_by_id Cases.cid1))
                  Demo.build Demo.cid) Cases.two = inr x.
Proof.
  split; [reflexivity|]. split; [reflexivity|]. split; [reflexivity|].
  destruct (@post_message_writes_one_record Hex24.format Scripted.provider
              (after (delete_chat_by_id Cases.cid1))
              Cases.two Demo.build Demo.cid Demo.button []
              Demo.styled eq_refl eq_refl eq_refl)
    as (Hframe & _ & Hret & _).
  split.
  - exact (Hframe 1%N ltac:(discriminate)).
  - apply Hret. eexists. reflexivity.
Defined.
